(** * creenv-canvas: a facade over the HTML 2D canvas

    The repository holds two implementations of the same facade:

    - [src/lib/index.js]: an ES6 class [Canvas] (embedded in [ClassCanvas]);
    - [src/unnamed/part_000]: a constructor function [Canvas] with a
      prototype object (embedded in [ProtoCanvas]).

    Both forward drawing calls to host objects ([document], [window], a
    canvas element and its 2D context). The host is not part of the
    repository: it is modelled here as a state record together with the
    ordered log of every interaction the facade has with it. *)

From Stdlib Require Import ZArith List String Bool Lia.
Import ListNotations.
Local Open Scope Z_scope.
Local Open Scope string_scope.
Local Open Scope list_scope.

(** ** JavaScript values that reach the facade *)

(** Numbers are forwarded to the host untouched: the facade performs no
    arithmetic on them, so integers stand for them. *)
Definition number := Z.

(** Fill and stroke styles are opaque to the facade. *)
Definition Style := string.

(** An argument of type [A] as a caller can pass it: left out
    ([undefined]), [null], or an actual value. *)
Inductive jsval (A : Type) : Type :=
| undefined
| null
| given (a : A).
Arguments undefined {A}.
Arguments null {A}.
Arguments given {A} a.

(** [if (v)] for a boolean-valued argument. *)
Definition truthy (v : jsval bool) : bool :=
  match v with
  | given b => b
  | _ => false
  end.

(** [if (v)] for an object-valued argument: every object is truthy. *)
Definition truthy_obj {A : Type} (v : jsval A) : bool :=
  match v with
  | given _ => true
  | _ => false
  end.

(** [if (v === undefined) v = d], also the meaning of a default
    parameter [v = d]. *)
Definition default_to {A : Type} (d : jsval A) (v : jsval A) : jsval A :=
  match v with
  | undefined => d
  | _ => v
  end.

(** ** The host: canvas element, 2D context, window *)

(** The pieces of the current path of a 2D context. *)
Inductive PathCmd : Type :=
| PMove (x y : number)
| PLine (x y : number)
| PArc (x y radius startAngle endAngle : number) (anticlockwise : jsval bool)
| PClose.

(** The only function the facade ever registers as a listener is its own
    [onWindowResizeHandler], bound to the facade. *)
Inductive Listener : Type :=
| BoundOnWindowResizeHandler.

Definition Listener_eqb (a b : Listener) : bool := true.

(** Every interaction with a host object, as the facade issues it. *)
Inductive Call : Type :=
| DocCreateElement (tag : string)
| BodyAppendChild
| CanvasGetContext (kind : string)
| CanvasStyleSetDisplay (v : string)
| CanvasGetWidth
| CanvasGetHeight
| CanvasSetWidth (w : number)
| CanvasSetHeight (h : number)
| WindowGetInnerWidth
| WindowGetInnerHeight
| WindowAddEventListener (type : string) (l : Listener)
| CtxGetFillStyle
| CtxSetFillStyle (s : jsval Style)
| CtxSetStrokeStyle (s : jsval Style)
| CtxFillRect (x y w h : number)
| CtxClearRect (x y w h : number)
| CtxBeginPath
| CtxMoveTo (x y : number)
| CtxLineTo (x y : number)
| CtxArc (x y radius startAngle endAngle : number) (anticlockwise : jsval bool)
| CtxClosePath
| CtxStroke
| CtxFill
| CtxSave
| CtxRestore.

(** What has been painted on the bitmap of a canvas: each painting call
    with the style and the path it used. *)
Inductive Paint : Type :=
| PaintRect (style : Style) (x y w h : number)
| PaintFill (style : Style) (path : list PathCmd)
| PaintStroke (style : Style) (path : list PathCmd)
| PaintClear (x y w h : number).

(** A canvas element with the state of its 2D context. *)
Record CanvasElement : Type := mkCanvasElement {
  cv_width : number;
  cv_height : number;
  cv_display : string;
  cv_attached : bool;
  ctx_fillStyle : Style;
  ctx_strokeStyle : Style;
  ctx_path : list PathCmd;
  ctx_saved : list (Style * Style);
  cv_bitmap : list Paint
}.

Record Window : Type := mkWindow {
  innerWidth : number;
  innerHeight : number;
  listeners : list (string * Listener)
}.

(** The page before a canvas is bound to a facade. *)
Record Page : Type := mkPage {
  pg_window : Window;
  pg_trace : list Call
}.

(** The host of a constructed facade: the canvas element the facade holds
    in [this.canvas] (and whose context it holds in [this.context]), the
    window, and the log of calls so far, oldest first. *)
Record Host : Type := mkHost {
  canvas : CanvasElement;
  window : Window;
  trace : list Call
}.

Definition default_style : Style := "#000000".

(** What [document.createElement("canvas")] returns. *)
Definition created_canvas : CanvasElement :=
  mkCanvasElement 300 150 "" false default_style default_style [] [] [].

(** A detached canvas element of a given size, in its default state. *)
Definition blank_canvas (w h : number) : CanvasElement :=
  mkCanvasElement w h "" false default_style default_style [] [] [].

Definition set_attached (b : bool) (c : CanvasElement) : CanvasElement :=
  mkCanvasElement (cv_width c) (cv_height c) (cv_display c) b
    (ctx_fillStyle c) (ctx_strokeStyle c) (ctx_path c) (ctx_saved c) (cv_bitmap c).

Definition set_display (v : string) (c : CanvasElement) : CanvasElement :=
  mkCanvasElement (cv_width c) (cv_height c) v (cv_attached c)
    (ctx_fillStyle c) (ctx_strokeStyle c) (ctx_path c) (ctx_saved c) (cv_bitmap c).

(** Assigning [canvas.width] or [canvas.height] resizes the backing store,
    which clears the bitmap and puts the context back into its default
    state: styles, saved states and the current path are lost. The size is
    stored as assigned, which is what a canvas does for the sizes of
    [canvas_size_ok] below (0 to 2^31 - 1, as every viewport size is);
    outside that range a canvas falls back to another size, which is not
    followed here, so statements about the stored size of a size chosen by
    the client carry that range as a hypothesis. *)
Definition resize_width (w : number) (c : CanvasElement) : CanvasElement :=
  mkCanvasElement w (cv_height c) (cv_display c) (cv_attached c)
    default_style default_style [] [] [].

Definition resize_height (h : number) (c : CanvasElement) : CanvasElement :=
  mkCanvasElement (cv_width c) h (cv_display c) (cv_attached c)
    default_style default_style [] [] [].

(** Assigning something that is not a style ([undefined], [null]) to
    [context.fillStyle] or [context.strokeStyle] is ignored by the context.
    A string is kept as it is: that a context ignores a string that names
    no colour, and reads a colour back in its own spelling, is not
    followed here, so no statement equates the style of the context with a
    string chosen by the client. *)
Definition set_fillStyle (s : jsval Style) (c : CanvasElement) : CanvasElement :=
  match s with
  | given v =>
      mkCanvasElement (cv_width c) (cv_height c) (cv_display c) (cv_attached c)
        v (ctx_strokeStyle c) (ctx_path c) (ctx_saved c) (cv_bitmap c)
  | _ => c
  end.

Definition set_strokeStyle (s : jsval Style) (c : CanvasElement) : CanvasElement :=
  match s with
  | given v =>
      mkCanvasElement (cv_width c) (cv_height c) (cv_display c) (cv_attached c)
        (ctx_fillStyle c) v (ctx_path c) (ctx_saved c) (cv_bitmap c)
  | _ => c
  end.

Definition set_path (p : list PathCmd) (c : CanvasElement) : CanvasElement :=
  mkCanvasElement (cv_width c) (cv_height c) (cv_display c) (cv_attached c)
    (ctx_fillStyle c) (ctx_strokeStyle c) p (ctx_saved c) (cv_bitmap c).

Definition push_saved (c : CanvasElement) : CanvasElement :=
  mkCanvasElement (cv_width c) (cv_height c) (cv_display c) (cv_attached c)
    (ctx_fillStyle c) (ctx_strokeStyle c) (ctx_path c)
    ((ctx_fillStyle c, ctx_strokeStyle c) :: ctx_saved c) (cv_bitmap c).

Definition pop_saved (c : CanvasElement) : CanvasElement :=
  match ctx_saved c with
  | [] => c
  | (f, s) :: rest =>
      mkCanvasElement (cv_width c) (cv_height c) (cv_display c) (cv_attached c)
        f s (ctx_path c) rest (cv_bitmap c)
  end.

Definition paint (d : Paint) (c : CanvasElement) : CanvasElement :=
  mkCanvasElement (cv_width c) (cv_height c) (cv_display c) (cv_attached c)
    (ctx_fillStyle c) (ctx_strokeStyle c) (ctx_path c) (ctx_saved c)
    (cv_bitmap c ++ [d]).

(** [lineTo] on an empty path only places the pen. *)
Definition path_lineTo (x y : number) (p : list PathCmd) : list PathCmd :=
  match p with
  | [] => [PMove x y]
  | _ => p ++ [PLine x y]
  end.

(** [closePath] on an empty path does nothing. *)
Definition path_close (p : list PathCmd) : list PathCmd :=
  match p with
  | [] => []
  | _ => p ++ [PClose]
  end.

Definition add_listener (type : string) (l : Listener) (w : Window) : Window :=
  if existsb (fun e => String.eqb (fst e) type && Listener_eqb (snd e) l)
       (listeners w)
  then w
  else mkWindow (innerWidth w) (innerHeight w) (listeners w ++ [(type, l)]).

Definition set_viewport (w h : number) (win : Window) : Window :=
  mkWindow w h (listeners win).

(** The reaction of the canvas element and its context to a call. An arc
    is appended whatever its radius, which is what a context does for a
    radius that is not negative; for a negative one it throws and appends
    nothing, so statements about the path after an arc carry [0 <= radius]
    as a hypothesis. *)
Definition react_canvas (c : Call) (cv : CanvasElement) : CanvasElement :=
  match c with
  | BodyAppendChild => set_attached true cv
  | CanvasStyleSetDisplay v => set_display v cv
  | CanvasSetWidth w => resize_width w cv
  | CanvasSetHeight h => resize_height h cv
  | CtxSetFillStyle s => set_fillStyle s cv
  | CtxSetStrokeStyle s => set_strokeStyle s cv
  | CtxBeginPath => set_path [] cv
  | CtxMoveTo x y => set_path (ctx_path cv ++ [PMove x y]) cv
  | CtxLineTo x y => set_path (path_lineTo x y (ctx_path cv)) cv
  | CtxArc x y r a0 a1 acw => set_path (ctx_path cv ++ [PArc x y r a0 a1 acw]) cv
  | CtxClosePath => set_path (path_close (ctx_path cv)) cv
  | CtxFillRect x y w h => paint (PaintRect (ctx_fillStyle cv) x y w h) cv
  | CtxClearRect x y w h => paint (PaintClear x y w h) cv
  | CtxStroke => paint (PaintStroke (ctx_strokeStyle cv) (ctx_path cv)) cv
  | CtxFill => paint (PaintFill (ctx_fillStyle cv) (ctx_path cv)) cv
  | CtxSave => push_saved cv
  | CtxRestore => pop_saved cv
  | _ => cv
  end.

Definition react_window (c : Call) (w : Window) : Window :=
  match c with
  | WindowAddEventListener type l => add_listener type l w
  | _ => w
  end.

(** Perform a call on the host: the host reacts and the call is logged. *)
Definition perform (c : Call) (h : Host) : Host :=
  mkHost (react_canvas c (canvas h)) (react_window c (window h)) (trace h ++ [c]).

Definition perform_page (c : Call) (p : Page) : Page :=
  mkPage (react_window c (pg_window p)) (pg_trace p ++ [c]).

(** Bind a canvas element to the page: the host of a facade. *)
Definition bind_canvas (cv : CanvasElement) (p : Page) : Host :=
  mkHost cv (pg_window p) (pg_trace p).

(** ** Method bodies: a state monad over the facade and its host *)

Section Script.
Context {F : Type}.

Definition St : Type := (F * Host)%type.
Definition M (A : Type) : Type := St -> A * St.

Definition ret {A : Type} (a : A) : M A := fun s => (a, s).

Definition bind {A B : Type} (m : M A) (k : A -> M B) : M B :=
  fun s => let '(a, s') := m s in k a s'.

Definition this : M F := fun s => (fst s, s).

Definition update (f : F -> F) : M unit := fun s => (tt, (f (fst s), snd s)).

(** A method call or a property assignment on a host object. *)
Definition call (c : Call) : M unit := fun s => (tt, (fst s, perform c (snd s))).

(** A property read on a host object. *)
Definition read {A : Type} (c : Call) (get : Host -> A) : M A :=
  fun s => (get (snd s), (fst s, perform c (snd s))).

Definition exec {A : Type} (m : M A) (s : St) : St := snd (m s).

(** A client script: method calls one after the other. *)
Fixpoint script (ms : list (M unit)) : M unit :=
  match ms with
  | [] => ret tt
  | m :: rest => bind m (fun _ => script rest)
  end.
End Script.

Arguments St F : clear implicits.
Arguments M F A : clear implicits.

Declare Scope script_scope.
Delimit Scope script_scope with script.
Notation "x <- m ;; k" := (bind m (fun x => k))
  (at level 61, m at next level, right associativity) : script_scope.
Notation "m ;; k" := (bind m (fun _ => k))
  (at level 61, right associativity) : script_scope.

(** Host property reads used by the facade. *)
Definition canvas_width {F : Type} : M F number :=
  read CanvasGetWidth (fun h => cv_width (canvas h)).
Definition canvas_height {F : Type} : M F number :=
  read CanvasGetHeight (fun h => cv_height (canvas h)).
Definition window_innerWidth {F : Type} : M F number :=
  read WindowGetInnerWidth (fun h => innerWidth (window h)).
Definition window_innerHeight {F : Type} : M F number :=
  read WindowGetInnerHeight (fun h => innerHeight (window h)).
Definition context_fillStyle {F : Type} : M F Style :=
  read CtxGetFillStyle (fun h => ctx_fillStyle (canvas h)).

(** How construction ends: with a facade bound to its host, or with an
    exception. *)
Inductive JsError : Type :=
| TypeError.

Inductive Construction (F : Type) : Type :=
| Constructed (c : F) (h : Host)
| Threw (e : JsError) (p : Page).
Arguments Constructed {F} c h.
Arguments Threw {F} e p.

(** The viewport changes size: the window takes its new dimensions and
    every listener registered for ["resize"] runs, in registration order. *)
Definition set_window_size {F : Type} (w h : number) : M F unit :=
  fun s => (tt, (fst s, mkHost (canvas (snd s)) (set_viewport w h (window (snd s)))
                          (trace (snd s)))).

Fixpoint run_listeners {F : Type} (handler : Listener -> M F unit)
    (ls : list (string * Listener)) : M F unit :=
  match ls with
  | [] => ret tt
  | (type, l) :: rest =>
      if String.eqb type "resize"
      then bind (handler l) (fun _ => run_listeners handler rest)
      else run_listeners handler rest
  end.

Definition resize_event {F : Type} (handler : Listener -> M F unit)
    (w h : number) : M F unit :=
  bind (set_window_size w h) (fun _ =>
  fun s => run_listeners handler (listeners (window (snd s))) s).

(** [document.createElement("canvas")] followed by
    [document.body.appendChild(canvasElement)]. *)
Definition create_and_attach (p : Page) : CanvasElement * Page :=
  (react_canvas BodyAppendChild created_canvas,
   perform_page BodyAppendChild (perform_page (DocCreateElement "canvas") p)).

Local Open Scope script_scope.

(** ** The class of [src/lib/index.js] *)

Module ClassCanvas.

(** The fields [canvas] and [context] refer to the host's canvas element
    and its context. *)
Record Canvas : Type := mkCanvas {
  fullWindow : jsval bool;
  pathStarted : bool
}.

Definition set_pathStarted (b : bool) (c : Canvas) : Canvas :=
  mkCanvas (fullWindow c) b.

(** The class declares [canvas], [context], [fullWindow] and
    [pathStarted], and no method assigns any other property: reading
    [width] or [height] on a facade yields [undefined]. *)
Definition width (c : Canvas) : jsval number := undefined.
Definition height (c : Canvas) : jsval number := undefined.

Definition setSize (width height : number) : M Canvas unit :=
  call (CanvasSetWidth width) ;;
  call (CanvasSetHeight height).

Definition onWindowResizeHandler : M Canvas unit :=
  w <- window_innerWidth ;;
  h <- window_innerHeight ;;
  setSize w h.

(** The executor of the promise runs inside [new Promise], so [init] has
    done all its work when it returns. *)
Definition init : M Canvas unit :=
  c <- this ;;
  if truthy (fullWindow c) then
    w <- window_innerWidth ;;
    h <- window_innerHeight ;;
    setSize w h ;;
    call (WindowAddEventListener "resize" BoundOnWindowResizeHandler)
  else ret tt.

(** [new Canvas(canvasElement, fullWindow)]. *)
Definition new_Canvas (canvasElement : jsval CanvasElement)
    (fullWindow : jsval bool) (p : Page) : Construction Canvas :=
  let canvasElement := default_to null canvasElement in
  let fullWindow := default_to (given true) fullWindow in
  let '(canvasElement, p) :=
    if negb (truthy_obj canvasElement)
    then let '(el, p') := create_and_attach p in (given el, p')
    else (canvasElement, p) in
  match canvasElement with
  | given el =>
      Constructed (mkCanvas fullWindow false)
        (perform (CanvasGetContext "2d") (bind_canvas el p))
  | _ => Threw TypeError p
  end.

Definition fillStyle (style : jsval Style) : M Canvas unit :=
  call (CtxSetFillStyle style).

Definition strokeStyle (style : jsval Style) : M Canvas unit :=
  call (CtxSetStrokeStyle style).

Definition rect (x y width height : number) : M Canvas unit :=
  call (CtxFillRect x y width height).

Definition arc (x y radius startAngle endAngle : number)
    (anticlockwise addToPath : jsval bool) : M Canvas unit :=
  let anticlockwise := default_to (given false) anticlockwise in
  let addToPath := default_to (given false) addToPath in
  (if negb (truthy addToPath) then call CtxBeginPath else ret tt) ;;
  call (CtxArc x y radius startAngle endAngle anticlockwise).

Definition addPoint (x y : number) : M Canvas unit :=
  c <- this ;;
  if negb (pathStarted c) then
    call CtxBeginPath ;;
    call (CtxMoveTo x y) ;;
    update (set_pathStarted true)
  else
    call (CtxLineTo x y).

Definition stroke (closed : jsval bool) : M Canvas unit :=
  let closed := default_to (given false) closed in
  (if truthy closed then call CtxClosePath else ret tt) ;;
  call CtxStroke ;;
  update (set_pathStarted false).

Definition fill (closed : jsval bool) : M Canvas unit :=
  let closed := default_to (given false) closed in
  (if truthy closed then call CtxClosePath else ret tt) ;;
  call CtxFill ;;
  update (set_pathStarted false).

Definition save : M Canvas unit := call CtxSave.

Definition restore : M Canvas unit := call CtxRestore.

Definition clearAll : M Canvas unit :=
  w <- canvas_width ;;
  h <- canvas_height ;;
  call (CtxClearRect 0 0 w h).

(** What a registered listener runs when the window fires ["resize"]. *)
Definition listener_body (l : Listener) : M Canvas unit :=
  match l with
  | BoundOnWindowResizeHandler => onWindowResizeHandler
  end.

End ClassCanvas.

(** ** The constructor function and prototype of [src/unnamed/part_000] *)

Module ProtoCanvas.

Record Canvas : Type := mkCanvas {
  fullWindow : jsval bool;
  pathStarted : bool;
  width : number;
  height : number
}.

Definition set_pathStarted (b : bool) (c : Canvas) : Canvas :=
  mkCanvas (fullWindow c) b (width c) (height c).

Definition set_width (w : number) (c : Canvas) : Canvas :=
  mkCanvas (fullWindow c) (pathStarted c) w (height c).

Definition set_height (h : number) (c : Canvas) : Canvas :=
  mkCanvas (fullWindow c) (pathStarted c) (width c) h.

Definition setSize (width height : number) : M Canvas unit :=
  call (CanvasSetWidth width) ;;
  call (CanvasSetHeight height) ;;
  update (set_width width) ;;
  update (set_height height).

Definition onWindowResizeHandler : M Canvas unit :=
  w <- window_innerWidth ;;
  h <- window_innerHeight ;;
  setSize w h.

(** The executor of the promise runs inside [new Promise], so [init] has
    done all its work when it returns. *)
Definition init : M Canvas unit :=
  c <- this ;;
  if truthy (fullWindow c) then
    call (CanvasStyleSetDisplay "block") ;;
    w <- window_innerWidth ;;
    h <- window_innerHeight ;;
    setSize w h ;;
    call (WindowAddEventListener "resize" BoundOnWindowResizeHandler)
  else
    w <- canvas_width ;;
    update (set_width w) ;;
    h <- canvas_height ;;
    update (set_height h).

(** [new Canvas(canvasElement, fullWindow, autoInit)]; the guard for a
    call without [new] is not modelled. The fields start as
    [fullWindow = true], [pathStarted = false], [width = 0], [height = 0];
    [this.canvas.getContext] throws when [this.canvas] is [null]. *)
Definition new_Canvas (canvasElement : jsval CanvasElement)
    (fullWindow autoInit : jsval bool) (p : Page) : Construction Canvas :=
  let '(canvasElement, p) :=
    match canvasElement with
    | undefined => let '(el, p') := create_and_attach p in (given el, p')
    | _ => (canvasElement, p)
    end in
  let fullWindow := default_to (given true) fullWindow in
  let autoInit := default_to (given true) autoInit in
  match canvasElement with
  | given el =>
      let s := (mkCanvas fullWindow false 0 0,
                perform (CanvasGetContext "2d") (bind_canvas el p)) in
      let s := if truthy autoInit then exec init s else s in
      Constructed (fst s) (snd s)
  | _ => Threw TypeError p
  end.

Definition fillStyle (style : jsval Style) : M Canvas unit :=
  call (CtxSetFillStyle style).

Definition strokeStyle (style : jsval Style) : M Canvas unit :=
  call (CtxSetStrokeStyle style).

Definition background (color : jsval Style) : M Canvas unit :=
  match color with
  | undefined =>
      w <- canvas_width ;;
      h <- canvas_height ;;
      call (CtxFillRect 0 0 w h)
  | _ =>
      fillstyle <- context_fillStyle ;;
      fillStyle color ;;
      w <- canvas_width ;;
      h <- canvas_height ;;
      call (CtxFillRect 0 0 w h) ;;
      fillStyle (given fillstyle)
  end.

Definition rect (x y width height : number) : M Canvas unit :=
  call (CtxFillRect x y width height).

Definition arc (x y radius startAngle endAngle : number)
    (anticlockwise addToPath : jsval bool) : M Canvas unit :=
  let anticlockwise := default_to (given false) anticlockwise in
  let addToPath := default_to (given false) addToPath in
  (if negb (truthy addToPath) then call CtxBeginPath else ret tt) ;;
  call (CtxArc x y radius startAngle endAngle anticlockwise).

Definition addPoint (x y : number) : M Canvas unit :=
  c <- this ;;
  if negb (pathStarted c) then
    call CtxBeginPath ;;
    call (CtxMoveTo x y) ;;
    update (set_pathStarted true)
  else
    call (CtxLineTo x y).

Definition stroke (closed : jsval bool) : M Canvas unit :=
  let closed := default_to (given false) closed in
  (if truthy closed then call CtxClosePath else ret tt) ;;
  call CtxStroke ;;
  update (set_pathStarted false).

Definition fill (closed : jsval bool) : M Canvas unit :=
  let closed := default_to (given false) closed in
  (if truthy closed then call CtxClosePath else ret tt) ;;
  call CtxFill ;;
  update (set_pathStarted false).

Definition save : M Canvas unit := call CtxSave.

Definition restore : M Canvas unit := call CtxRestore.

Definition clearAll : M Canvas unit :=
  w <- canvas_width ;;
  h <- canvas_height ;;
  call (CtxClearRect 0 0 w h).

(** What a registered listener runs when the window fires ["resize"]. *)
Definition listener_body (l : Listener) : M Canvas unit :=
  match l with
  | BoundOnWindowResizeHandler => onWindowResizeHandler
  end.

End ProtoCanvas.

(** ** Client scripts and observations used in the statements *)

(** *** Runs of [addPoint] *)

(** [addPoint] called once per point, in order, with nothing in between. *)
Definition class_addPoints (pts : list (number * number))
    : M ClassCanvas.Canvas unit :=
  script (map (fun p => ClassCanvas.addPoint (fst p) (snd p)) pts).

Definition proto_addPoints (pts : list (number * number))
    : M ProtoCanvas.Canvas unit :=
  script (map (fun p => ProtoCanvas.addPoint (fst p) (snd p)) pts).

(** The calls a run of [addPoint] over [pts] sends to the context,
    depending on whether a path was started before. *)
Definition polyline_calls (started : bool) (pts : list (number * number))
    : list Call :=
  match pts with
  | [] => []
  | (x, y) :: rest =>
      (if started then [CtxLineTo x y] else [CtxBeginPath; CtxMoveTo x y])
        ++ map (fun p => CtxLineTo (fst p) (snd p)) rest
  end.

(** The path that starts at the first point and joins the others in order. *)
Definition polyline (pts : list (number * number)) : list PathCmd :=
  match pts with
  | [] => []
  | (x, y) :: rest => PMove x y :: map (fun p => PLine (fst p) (snd p)) rest
  end.

(** The calls [stroke(closed)] and [fill(closed)] send before painting. *)
Definition closing_calls (closed : jsval bool) : list Call :=
  if truthy closed then [CtxClosePath] else [].

(** *** The viewport and its listeners *)

(** The viewport as the window reports it. *)
Definition viewport (h : Host) : number * number :=
  (innerWidth (window h), innerHeight (window h)).

(** Some listener is registered for ["resize"]. *)
Definition has_resize (ls : list (string * Listener)) : bool :=
  existsb (fun e => String.eqb (fst e) "resize") ls.

(** A run of viewport changes, each delivered to the listeners. *)
Definition class_resize_events (evs : list (number * number))
    : list (M ClassCanvas.Canvas unit) :=
  map (fun e => resize_event ClassCanvas.listener_body (fst e) (snd e)) evs.

Definition proto_resize_events (evs : list (number * number))
    : list (M ProtoCanvas.Canvas unit) :=
  map (fun e => resize_event ProtoCanvas.listener_body (fst e) (snd e)) evs.

(** The facade follows the viewport: a ["resize"] listener is registered
    and the canvas (and the cached size, where there is one) equals the
    viewport. *)
Definition class_tracking (s : St ClassCanvas.Canvas) : Prop :=
  has_resize (listeners (window (snd s))) = true
  /\ cv_width (canvas (snd s)) = innerWidth (window (snd s))
  /\ cv_height (canvas (snd s)) = innerHeight (window (snd s)).

Definition proto_tracking (s : St ProtoCanvas.Canvas) : Prop :=
  has_resize (listeners (window (snd s))) = true
  /\ ProtoCanvas.width (fst s) = innerWidth (window (snd s))
  /\ ProtoCanvas.height (fst s) = innerHeight (window (snd s))
  /\ cv_width (canvas (snd s)) = innerWidth (window (snd s))
  /\ cv_height (canvas (snd s)) = innerHeight (window (snd s)).

(** *** Logs of calls *)

(** The calls of [setSize(window.innerWidth, window.innerHeight)]. *)
Definition viewport_sync_calls (w : Window) : list Call :=
  [WindowGetInnerWidth; WindowGetInnerHeight;
   CanvasSetWidth (innerWidth w); CanvasSetHeight (innerHeight w)].

(** The calls of [init] when the canvas fills the window. *)
Definition class_init_calls (w : Window) : list Call :=
  viewport_sync_calls w
    ++ [WindowAddEventListener "resize" BoundOnWindowResizeHandler].

Definition proto_init_calls (w : Window) : list Call :=
  CanvasStyleSetDisplay "block" :: viewport_sync_calls w
    ++ [WindowAddEventListener "resize" BoundOnWindowResizeHandler].

(** Creating a canvas element and attaching it to the body. *)
Definition creation_calls : list Call :=
  [DocCreateElement "canvas"; BodyAppendChild].





(** *** Construction *)




(** A page with a window of 800 by 600, no listener and an empty log. *)
Definition page_800_600 : Page := mkPage (mkWindow 800 600 []) [].

(** *** Arbitrary client scripts *)

(** One step of a client of either implementation: a call of a method
    both have, or a viewport change delivered by the window. *)
Inductive Op : Type :=
| OFillStyle (style : jsval Style)
| OStrokeStyle (style : jsval Style)
| ORect (x y width height : number)
| OArc (x y radius startAngle endAngle : number)
    (anticlockwise addToPath : jsval bool)
| OAddPoint (x y : number)
| OStroke (closed : jsval bool)
| OFill (closed : jsval bool)
| OSave
| ORestore
| OClearAll
| OSetSize (width height : number)
| OInit
| OResize (w h : number).

Definition class_run (o : Op) : M ClassCanvas.Canvas unit :=
  match o with
  | OFillStyle s => ClassCanvas.fillStyle s
  | OStrokeStyle s => ClassCanvas.strokeStyle s
  | ORect x y w h => ClassCanvas.rect x y w h
  | OArc x y r a0 a1 acw atp => ClassCanvas.arc x y r a0 a1 acw atp
  | OAddPoint x y => ClassCanvas.addPoint x y
  | OStroke closed => ClassCanvas.stroke closed
  | OFill closed => ClassCanvas.fill closed
  | OSave => ClassCanvas.save
  | ORestore => ClassCanvas.restore
  | OClearAll => ClassCanvas.clearAll
  | OSetSize w h => ClassCanvas.setSize w h
  | OInit => ClassCanvas.init
  | OResize w h => resize_event ClassCanvas.listener_body w h
  end.

Definition proto_run_shared (o : Op) : M ProtoCanvas.Canvas unit :=
  match o with
  | OFillStyle s => ProtoCanvas.fillStyle s
  | OStrokeStyle s => ProtoCanvas.strokeStyle s
  | ORect x y w h => ProtoCanvas.rect x y w h
  | OArc x y r a0 a1 acw atp => ProtoCanvas.arc x y r a0 a1 acw atp
  | OAddPoint x y => ProtoCanvas.addPoint x y
  | OStroke closed => ProtoCanvas.stroke closed
  | OFill closed => ProtoCanvas.fill closed
  | OSave => ProtoCanvas.save
  | ORestore => ProtoCanvas.restore
  | OClearAll => ProtoCanvas.clearAll
  | OSetSize w h => ProtoCanvas.setSize w h
  | OInit => ProtoCanvas.init
  | OResize w h => resize_event ProtoCanvas.listener_body w h
  end.

(** A step of a client of the prototype, which also has [background]. *)
Inductive ProtoOp : Type :=
| PShared (o : Op)
| PBackground (color : jsval Style).

Definition proto_run (o : ProtoOp) : M ProtoCanvas.Canvas unit :=
  match o with
  | PShared o => proto_run_shared o
  | PBackground color => ProtoCanvas.background color
  end.

(** How one step moves the [pathStarted] flag. *)
Definition flag_step (b : bool) (o : Op) : bool :=
  match o with
  | OAddPoint _ _ => true
  | OStroke _ | OFill _ => false
  | _ => b
  end.

Definition proto_flag_step (b : bool) (o : ProtoOp) : bool :=
  match o with
  | PShared o => flag_step b o
  | PBackground _ => b
  end.

(** The steps that only set styles or paint: they neither build a path
    nor resize. *)
Definition styling (o : Op) : bool :=
  match o with
  | OFillStyle _ | OStrokeStyle _ | ORect _ _ _ _
  | OSave | ORestore | OClearAll => true
  | _ => false
  end.

Definition proto_styling (o : ProtoOp) : bool :=
  match o with
  | PShared o => styling o
  | PBackground _ => true
  end.

(** The step is a call of [init]. *)
Definition is_init (o : Op) : bool :=
  match o with
  | OInit => true
  | _ => false
  end.


(** The cached size of the prototype agrees with the canvas. *)
Definition proto_coherent (s : St ProtoCanvas.Canvas) : Prop :=
  ProtoCanvas.width (fst s) = cv_width (canvas (snd s))
  /\ ProtoCanvas.height (fst s) = cv_height (canvas (snd s)).

(** The path after sending [lineTo] for each point in turn. *)
Definition path_after_lines (pts : list (number * number))
    (p : list PathCmd) : list PathCmd :=
  fold_left (fun acc pt => path_lineTo (fst pt) (snd pt) acc) pts p.

(** Two hosts agree on everything but the log of calls. *)
Definition same_host_state (h1 h2 : Host) : Prop :=
  canvas h1 = canvas h2 /\ window h1 = window h2.

(** *** Further observations *)

(** The sizes a canvas stores as they are assigned. *)
Definition canvas_size_ok (n : number) : Prop := 0 <= n <= 2147483647.

Definition canvas_size_okb (n : number) : bool :=
  ((0 <=? n) && (n <=? 2147483647))%Z.

(** The step assigns no size that a canvas would not store: the sizes of
    a [setSize] are in range. *)
Definition sizes_ok (o : Op) : bool :=
  match o with
  | OSetSize w h => canvas_size_okb w && canvas_size_okb h
  | _ => true
  end.

Definition proto_sizes_ok (o : ProtoOp) : bool :=
  match o with
  | PShared o => sizes_ok o
  | PBackground _ => true
  end.

(** Split the optional arguments in sight into their cases. *)
Ltac case_args :=
  repeat match goal with
         | v : jsval bool |- _ => destruct v as [| | []]
         | v : jsval Style |- _ => destruct v
         end.

(** The step is a call of [init]. *)
Definition proto_is_init (o : ProtoOp) : bool :=
  match o with
  | PShared o => is_init o
  | PBackground _ => false
  end.

(** The listener [init] adds when none is registered for ["resize"]. *)
Definition added_listener (registered fullWindow inits : bool)
    : list (string * Listener) :=
  if negb registered && fullWindow && inits
  then [("resize", BoundOnWindowResizeHandler)]
  else [].

(** The canvas a constructor binds: the one supplied, or a created one
    attached to the body. *)
Definition bound_canvas (canvasElement : jsval CanvasElement) : CanvasElement :=
  match canvasElement with
  | given el => el
  | _ => set_attached true created_canvas
  end.

(** Two canvas elements agree on size, placement and current path. *)
Definition same_geometry (a b : CanvasElement) : Prop :=
  cv_width a = cv_width b
  /\ cv_height a = cv_height b
  /\ cv_display a = cv_display b
  /\ cv_attached a = cv_attached b
  /\ ctx_path a = ctx_path b.

(** [fill(closed)] or [stroke(closed)], by choice. *)
Definition class_finish (use_fill : bool) (closed : jsval bool)
    : M ClassCanvas.Canvas unit :=
  if use_fill then ClassCanvas.fill closed else ClassCanvas.stroke closed.

Definition proto_finish (use_fill : bool) (closed : jsval bool)
    : M ProtoCanvas.Canvas unit :=
  if use_fill then ProtoCanvas.fill closed else ProtoCanvas.stroke closed.

(** What the finishing call paints, given the canvas before the shape was
    begun. *)
Definition finished_paint (use_fill : bool) (cv : CanvasElement)
    (path : list PathCmd) : Paint :=
  if use_fill then PaintFill (ctx_fillStyle cv) path
  else PaintStroke (ctx_strokeStyle cv) path.

(** [closePath] sent or not. *)
Definition path_close_if (closed : bool) (p : list PathCmd) : list PathCmd :=
  if closed then path_close p else p.

(** The path a finishing call paints for a run of points. *)
Definition finished_path (pts : list (number * number)) (closed : jsval bool)
    : list PathCmd :=
  path_close_if (truthy closed) (polyline pts).

(** The calls the resize listener makes for a viewport change. *)
Definition event_calls (e : number * number) : list Call :=
  [WindowGetInnerWidth; WindowGetInnerHeight;
   CanvasSetWidth (fst e); CanvasSetHeight (snd e)].

(** The window has exactly one ["resize"] listener, registered last. *)
Definition heard_once (w : Window) : Prop :=
  exists L, has_resize L = false
            /\ listeners w = L ++ [("resize", BoundOnWindowResizeHandler)].

(** Unfold the monad and let the host react. *)
Ltac run_script :=
  unfold exec, bind, call, update, this, ret, read, perform; simpl.

(** * Properties *)

(** ** Running scripts *)

Lemma exec_script_nil {F : Type} (s : St F) : exec (script []) s = s.
Proof. reflexivity. Qed.

Lemma exec_script_cons {F : Type} (m : M F unit) (ms : list (M F unit))
    (s : St F) :
  exec (script (m :: ms)) s = exec (script ms) (exec m s).
Proof.
  unfold exec. cbn [script]. unfold bind. destruct (m s) as [u s1]. reflexivity.
Qed.

Lemma exec_bind {F A B : Type} (m : M F A) (k : A -> M F B) (s : St F) :
  exec (bind m k) s = exec (k (fst (m s))) (snd (m s)).
Proof.
  unfold exec, bind. destruct (m s) as [a s1]. reflexivity.
Qed.

(** ** Path building *)

(** Once a path is started, a run of [addPoint] only sends [lineTo]; the
    facade and the window are left alone, and a path that already has a
    pen position grows by one segment per point. *)
Lemma class_addPoints_started (pts : list (number * number)) :
  forall (fw : jsval bool) (cv : CanvasElement) (w : Window) (t : list Call),
    exists cv',
      exec (class_addPoints pts) (ClassCanvas.mkCanvas fw true, mkHost cv w t)
      = (ClassCanvas.mkCanvas fw true,
         mkHost cv' w (t ++ map (fun p => CtxLineTo (fst p) (snd p)) pts))
      /\ (forall q qs, ctx_path cv = q :: qs ->
            ctx_path cv' = (q :: qs) ++ map (fun p => PLine (fst p) (snd p)) pts).
Proof.
  induction pts as [| [x y] pts IH]; intros fw cv w t.
  - exists cv. simpl. rewrite !app_nil_r. split; [reflexivity |].
    intros q qs Hp. rewrite app_nil_r. exact Hp.
  - destruct (IH fw (react_canvas (CtxLineTo x y) cv) w (t ++ [CtxLineTo x y]))
      as [cv' [Hrun Hpath]].
    exists cv'. split.
    + unfold class_addPoints in *. simpl map. cbn [script].
      unfold exec in *. unfold bind at 1.
      unfold ClassCanvas.addPoint at 1. run_script.
      simpl in Hrun. rewrite Hrun. rewrite <- app_assoc. reflexivity.
    + intros q qs Hp. rewrite (Hpath q (qs ++ [PLine x y])).
      * simpl. rewrite <- app_assoc. reflexivity.
      * simpl. rewrite Hp. reflexivity.
Qed.

Lemma proto_addPoints_started (pts : list (number * number)) :
  forall (fw : jsval bool) (wd ht : number) (cv : CanvasElement) (w : Window)
         (t : list Call),
    exists cv',
      exec (proto_addPoints pts)
        (ProtoCanvas.mkCanvas fw true wd ht, mkHost cv w t)
      = (ProtoCanvas.mkCanvas fw true wd ht,
         mkHost cv' w (t ++ map (fun p => CtxLineTo (fst p) (snd p)) pts))
      /\ (forall q qs, ctx_path cv = q :: qs ->
            ctx_path cv' = (q :: qs) ++ map (fun p => PLine (fst p) (snd p)) pts).
Proof.
  induction pts as [| [x y] pts IH]; intros fw wd ht cv w t.
  - exists cv. simpl. rewrite !app_nil_r. split; [reflexivity |].
    intros q qs Hp. rewrite app_nil_r. exact Hp.
  - destruct (IH fw wd ht (react_canvas (CtxLineTo x y) cv) w
                (t ++ [CtxLineTo x y])) as [cv' [Hrun Hpath]].
    exists cv'. split.
    + unfold proto_addPoints in *. simpl map. cbn [script].
      unfold exec in *. unfold bind at 1.
      unfold ProtoCanvas.addPoint at 1. run_script.
      simpl in Hrun. rewrite Hrun. rewrite <- app_assoc. reflexivity.
    + intros q qs Hp. rewrite (Hpath q (qs ++ [PLine x y])).
      * simpl. rewrite <- app_assoc. reflexivity.
      * simpl. rewrite Hp. reflexivity.
Qed.

(** The state after a non-empty run of [addPoint], from any state. *)
Lemma class_addPoints_run (p : number * number) (pts : list (number * number))
    (c : ClassCanvas.Canvas) (h : Host) :
  exists cv',
    exec (class_addPoints (p :: pts)) (c, h)
    = (ClassCanvas.set_pathStarted true c,
       mkHost cv' (window h)
         (trace h ++ polyline_calls (ClassCanvas.pathStarted c) (p :: pts)))
    /\ (ClassCanvas.pathStarted c = false -> ctx_path cv' = polyline (p :: pts)).
Proof.
  destruct c as [fw started], h as [cv w t], p as [x y].
  destruct started.
  - destruct (class_addPoints_started ((x, y) :: pts) fw cv w t) as [cv' [E _]].
    exists cv'. split; [exact E | discriminate].
  - destruct (class_addPoints_started pts fw
                (react_canvas (CtxMoveTo x y) (react_canvas CtxBeginPath cv))
                w ((t ++ [CtxBeginPath]) ++ [CtxMoveTo x y])) as [cv' [E Hp]].
    exists cv'. split.
    + unfold class_addPoints in *. simpl map. cbn [script].
      unfold exec in *. unfold bind at 1.
      unfold ClassCanvas.addPoint at 1. run_script.
      unfold ClassCanvas.set_pathStarted. simpl. simpl in E. rewrite E.
      rewrite <- !app_assoc. reflexivity.
    + intros _. rewrite (Hp (PMove x y) []); reflexivity.
Qed.

Lemma proto_addPoints_run (p : number * number) (pts : list (number * number))
    (c : ProtoCanvas.Canvas) (h : Host) :
  exists cv',
    exec (proto_addPoints (p :: pts)) (c, h)
    = (ProtoCanvas.set_pathStarted true c,
       mkHost cv' (window h)
         (trace h ++ polyline_calls (ProtoCanvas.pathStarted c) (p :: pts)))
    /\ (ProtoCanvas.pathStarted c = false -> ctx_path cv' = polyline (p :: pts)).
Proof.
  destruct c as [fw started wd ht], h as [cv w t], p as [x y].
  destruct started.
  - destruct (proto_addPoints_started ((x, y) :: pts) fw wd ht cv w t)
      as [cv' [E _]].
    exists cv'. split; [exact E | discriminate].
  - destruct (proto_addPoints_started pts fw wd ht
                (react_canvas (CtxMoveTo x y) (react_canvas CtxBeginPath cv))
                w ((t ++ [CtxBeginPath]) ++ [CtxMoveTo x y])) as [cv' [E Hp]].
    exists cv'. split.
    + unfold proto_addPoints in *. simpl map. cbn [script].
      unfold exec in *. unfold bind at 1.
      unfold ProtoCanvas.addPoint at 1. run_script.
      unfold ProtoCanvas.set_pathStarted. simpl. simpl in E. rewrite E.
      rewrite <- !app_assoc. reflexivity.
    + intros _. rewrite (Hp (PMove x y) []); reflexivity.
Qed.

(** C1. [addPoint(x, y)] is a two-state machine over [pathStarted]: when
    the flag is false the call sends [beginPath] and [moveTo(x, y)] to the
    context and sets the flag; when it is true the call sends
    [lineTo(x, y)] and leaves the facade as it is. Consequently, after any
    non-empty run of [addPoint] calls (nothing in between) the flag is
    true, the window is untouched, the context has received exactly
    [polyline_calls], and, when the run started with the flag false, the
    current path of the context is the polyline through the points in call
    order. This holds for the class and for the prototype alike. *)
Theorem C1_addPoint_state_machine :
  (forall x y c h,
     ClassCanvas.addPoint x y (c, h)
     = (tt, if ClassCanvas.pathStarted c
            then (c, perform (CtxLineTo x y) h)
            else (ClassCanvas.set_pathStarted true c,
                  perform (CtxMoveTo x y) (perform CtxBeginPath h))))
  /\ (forall x y c h,
     ProtoCanvas.addPoint x y (c, h)
     = (tt, if ProtoCanvas.pathStarted c
            then (c, perform (CtxLineTo x y) h)
            else (ProtoCanvas.set_pathStarted true c,
                  perform (CtxMoveTo x y) (perform CtxBeginPath h))))
  /\ (forall p pts c h,
     let s' := exec (class_addPoints (p :: pts)) (c, h) in
     fst s' = ClassCanvas.set_pathStarted true c
     /\ ClassCanvas.pathStarted (fst s') = true
     /\ window (snd s') = window h
     /\ trace (snd s')
        = trace h ++ polyline_calls (ClassCanvas.pathStarted c) (p :: pts))
  /\ (forall p pts c h,
     let s' := exec (proto_addPoints (p :: pts)) (c, h) in
     fst s' = ProtoCanvas.set_pathStarted true c
     /\ ProtoCanvas.pathStarted (fst s') = true
     /\ window (snd s') = window h
     /\ trace (snd s')
        = trace h ++ polyline_calls (ProtoCanvas.pathStarted c) (p :: pts))
  /\ (forall p pts c h,
     ctx_path (canvas (snd (exec (class_addPoints (p :: pts))
                              (ClassCanvas.set_pathStarted false c, h))))
     = polyline (p :: pts))
  /\ (forall p pts c h,
     ctx_path (canvas (snd (exec (proto_addPoints (p :: pts))
                              (ProtoCanvas.set_pathStarted false c, h))))
     = polyline (p :: pts)).
Proof.
  split; [| split; [| split; [| split; [| split]]]].
  - intros x y [fw []] h; reflexivity.
  - intros x y [fw [] wd ht] h; reflexivity.
  - intros p pts c h s'. subst s'.
    destruct (class_addPoints_run p pts c h) as [cv' [E _]]. rewrite E.
    repeat split; reflexivity.
  - intros p pts c h s'. subst s'.
    destruct (proto_addPoints_run p pts c h) as [cv' [E _]]. rewrite E.
    repeat split; reflexivity.
  - intros p pts c h.
    destruct (class_addPoints_run p pts (ClassCanvas.set_pathStarted false c) h)
      as [cv' [E Hp]].
    rewrite E. simpl. apply Hp. reflexivity.
  - intros p pts c h.
    destruct (proto_addPoints_run p pts (ProtoCanvas.set_pathStarted false c) h)
      as [cv' [E Hp]].
    rewrite E. simpl. apply Hp. reflexivity.
Qed.

(** ** Finishing a path *)

(** C2. For every prior state and every [closed] (left out, [null] or a
    boolean), [stroke(closed)] and [fill(closed)] send [closePath] to the
    context exactly when [closed] is true, then send [stroke]
    (respectively [fill]), then set [pathStarted] to false: the flag is
    false afterwards whatever it was, and the painting call is sent even
    when no path was started. Class and prototype agree. *)
Theorem C2_stroke_fill_reset :
  (forall closed c h,
     ClassCanvas.stroke closed (c, h)
     = (tt, (ClassCanvas.set_pathStarted false c,
             perform CtxStroke
               (if truthy closed then perform CtxClosePath h else h))))
  /\ (forall closed c h,
     ClassCanvas.fill closed (c, h)
     = (tt, (ClassCanvas.set_pathStarted false c,
             perform CtxFill
               (if truthy closed then perform CtxClosePath h else h))))
  /\ (forall closed c h,
     ProtoCanvas.stroke closed (c, h)
     = (tt, (ProtoCanvas.set_pathStarted false c,
             perform CtxStroke
               (if truthy closed then perform CtxClosePath h else h))))
  /\ (forall closed c h,
     ProtoCanvas.fill closed (c, h)
     = (tt, (ProtoCanvas.set_pathStarted false c,
             perform CtxFill
               (if truthy closed then perform CtxClosePath h else h))))
  /\ (forall closed c h,
     ClassCanvas.pathStarted (fst (exec (ClassCanvas.stroke closed) (c, h))) = false
     /\ ClassCanvas.pathStarted (fst (exec (ClassCanvas.fill closed) (c, h))) = false
     /\ trace (snd (exec (ClassCanvas.stroke closed) (c, h)))
        = trace h ++ closing_calls closed ++ [CtxStroke]
     /\ trace (snd (exec (ClassCanvas.fill closed) (c, h)))
        = trace h ++ closing_calls closed ++ [CtxFill])
  /\ (forall closed c h,
     ProtoCanvas.pathStarted (fst (exec (ProtoCanvas.stroke closed) (c, h))) = false
     /\ ProtoCanvas.pathStarted (fst (exec (ProtoCanvas.fill closed) (c, h))) = false
     /\ trace (snd (exec (ProtoCanvas.stroke closed) (c, h)))
        = trace h ++ closing_calls closed ++ [CtxStroke]
     /\ trace (snd (exec (ProtoCanvas.fill closed) (c, h)))
        = trace h ++ closing_calls closed ++ [CtxFill]).
Proof.
  split; [| split; [| split; [| split; [| split]]]];
    intros [| | []] c h; try reflexivity;
    repeat split; simpl; rewrite <- ?app_assoc; reflexivity.
Qed.

(** The script of [src/lib/test.js] after initialization, on both
    implementations: three points, then [stroke(true)]. The context
    strokes the closed triangle and the flag is back to false. *)
Example class_triangle_scenario :
  let s := exec (script [ClassCanvas.fillStyle (given "red");
                         ClassCanvas.addPoint 20 20;
                         ClassCanvas.addPoint 40 10;
                         ClassCanvas.addPoint 50 90;
                         ClassCanvas.stroke (given true)])
             (ClassCanvas.mkCanvas (given true) false,
              mkHost (blank_canvas 800 600) (mkWindow 800 600 []) []) in
  ClassCanvas.pathStarted (fst s) = false
  /\ cv_bitmap (canvas (snd s))
     = [PaintStroke default_style
          [PMove 20 20; PLine 40 10; PLine 50 90; PClose]].
Proof. split; reflexivity. Qed.

Example proto_triangle_scenario :
  let s := exec (script [ProtoCanvas.fillStyle (given "red");
                         ProtoCanvas.addPoint 20 20;
                         ProtoCanvas.addPoint 40 10;
                         ProtoCanvas.addPoint 50 90;
                         ProtoCanvas.stroke (given true)])
             (ProtoCanvas.mkCanvas (given true) false 800 600,
              mkHost (blank_canvas 800 600) (mkWindow 800 600 []) []) in
  ProtoCanvas.pathStarted (fst s) = false
  /\ cv_bitmap (canvas (snd s))
     = [PaintStroke default_style
          [PMove 20 20; PLine 40 10; PLine 50 90; PClose]].
Proof. split; reflexivity. Qed.

(** ** Arcs *)

(** C3. For every state, [arc] with [addToPath] false (or left out, or
    [null]) sends [beginPath] and then [arc] to the context, and the
    facade, with its [pathStarted] flag, is returned as it was; with
    [addToPath] true only [arc] is sent. For a radius that is not
    negative the current path of the context is then the arc alone in the
    first case, and the previous path followed by the arc in the second.
    After a run of [addPoint] the flag therefore still reads true although
    the context no longer holds the polyline. Class and prototype agree. *)
Theorem C3_arc_leaves_flag :
  (forall x y r a0 a1 acw atp c h,
     ClassCanvas.arc x y r a0 a1 acw atp (c, h)
     = (tt, (c, perform (CtxArc x y r a0 a1 (default_to (given false) acw))
                  (if truthy atp then h else perform CtxBeginPath h))))
  /\ (forall x y r a0 a1 acw atp c h,
     ProtoCanvas.arc x y r a0 a1 acw atp (c, h)
     = (tt, (c, perform (CtxArc x y r a0 a1 (default_to (given false) acw))
                  (if truthy atp then h else perform CtxBeginPath h))))
  /\ (forall x y r a0 a1 acw c h,
     let arc_call := CtxArc x y r a0 a1 (default_to (given false) acw) in
     let arc_path := [PArc x y r a0 a1 (default_to (given false) acw)] in
     let s := exec (ClassCanvas.arc x y r a0 a1 acw (given false)) (c, h) in
     let s' := exec (ClassCanvas.arc x y r a0 a1 acw (given true)) (c, h) in
     ClassCanvas.pathStarted (fst s) = ClassCanvas.pathStarted c
     /\ trace (snd s) = trace h ++ [CtxBeginPath; arc_call]
     /\ ClassCanvas.pathStarted (fst s') = ClassCanvas.pathStarted c
     /\ trace (snd s') = trace h ++ [arc_call]
     /\ (0 <= r ->
         ctx_path (canvas (snd s)) = arc_path
         /\ ctx_path (canvas (snd s')) = ctx_path (canvas h) ++ arc_path))
  /\ (forall x y r a0 a1 acw c h,
     let arc_call := CtxArc x y r a0 a1 (default_to (given false) acw) in
     let arc_path := [PArc x y r a0 a1 (default_to (given false) acw)] in
     let s := exec (ProtoCanvas.arc x y r a0 a1 acw (given false)) (c, h) in
     let s' := exec (ProtoCanvas.arc x y r a0 a1 acw (given true)) (c, h) in
     ProtoCanvas.pathStarted (fst s) = ProtoCanvas.pathStarted c
     /\ trace (snd s) = trace h ++ [CtxBeginPath; arc_call]
     /\ ProtoCanvas.pathStarted (fst s') = ProtoCanvas.pathStarted c
     /\ trace (snd s') = trace h ++ [arc_call]
     /\ (0 <= r ->
         ctx_path (canvas (snd s)) = arc_path
         /\ ctx_path (canvas (snd s')) = ctx_path (canvas h) ++ arc_path))
  /\ (forall p pts x y r a0 a1 acw c h,
     let s := exec (script [class_addPoints (p :: pts);
                            ClassCanvas.arc x y r a0 a1 acw (given false)])
                (c, h) in
     ClassCanvas.pathStarted (fst s) = true
     /\ (0 <= r ->
         ctx_path (canvas (snd s))
         = [PArc x y r a0 a1 (default_to (given false) acw)]))
  /\ (forall p pts x y r a0 a1 acw c h,
     let s := exec (script [proto_addPoints (p :: pts);
                            ProtoCanvas.arc x y r a0 a1 acw (given false)])
                (c, h) in
     ProtoCanvas.pathStarted (fst s) = true
     /\ (0 <= r ->
         ctx_path (canvas (snd s))
         = [PArc x y r a0 a1 (default_to (given false) acw)])).
Proof.
  split; [| split; [| split; [| split; [| split]]]].
  - intros x y r a0 a1 acw [| | []] c h; reflexivity.
  - intros x y r a0 a1 acw [| | []] c h; reflexivity.
  - intros x y r a0 a1 acw c h. cbn zeta.
    repeat split; cbn; rewrite <- ?app_assoc; reflexivity.
  - intros x y r a0 a1 acw c h. cbn zeta.
    repeat split; cbn; rewrite <- ?app_assoc; reflexivity.
  - intros p pts x y r a0 a1 acw c h s. subst s.
    destruct (class_addPoints_run p pts c h) as [cv' [E _]].
    rewrite exec_script_cons, E. split; [reflexivity | intros _; reflexivity].
  - intros p pts x y r a0 a1 acw c h s. subst s.
    destruct (proto_addPoints_run p pts c h) as [cv' [E _]].
    rewrite exec_script_cons, E. split; [reflexivity | intros _; reflexivity].
Qed.

(** C3 on a half circle of radius 10 after the point (5, 5). *)
Lemma C3_arc_leaves_flag_witness :
  0 <= 10
  /\ ctx_path
       (canvas
          (snd (exec (script [class_addPoints [(5, 5)];
                              ClassCanvas.arc 0 0 10 0 3 undefined (given false)])
                  (ClassCanvas.mkCanvas (given true) false,
                   mkHost (blank_canvas 100 50) (mkWindow 800 600 []) []))))
     = [PArc 0 0 10 0 3 (given false)].
Proof.
  split; [lia |].
  apply (proj2 (proj1 (proj2 (proj2 (proj2 (proj2 C3_arc_leaves_flag))))
                  (5, 5) [] 0 0 10 0 3 undefined
                  (ClassCanvas.mkCanvas (given true) false)
                  (mkHost (blank_canvas 100 50) (mkWindow 800 600 []) []))).
  lia.
Defined.

(** ** Sizes, initialization and the resize listener *)

Lemma has_resize_add_listener (l : Listener) (w : Window) :
  has_resize (listeners (add_listener "resize" l w)) = true.
Proof.
  unfold add_listener, has_resize.
  destruct (existsb _ (listeners w)) eqn:E.
  - apply existsb_exists in E. destruct E as [e [Hin He]].
    apply existsb_exists. exists e. split; [exact Hin |].
    apply andb_true_iff in He. tauto.
  - simpl. rewrite existsb_app. simpl. apply orb_true_r.
Qed.

Lemma add_listener_viewport (type : string) (l : Listener) (w : Window) :
  innerWidth (add_listener type l w) = innerWidth w
  /\ innerHeight (add_listener type l w) = innerHeight w.
Proof.
  unfold add_listener. destruct (existsb _ _); split; reflexivity.
Qed.

Lemma class_handler_run (c : ClassCanvas.Canvas) (h : Host) :
  exec ClassCanvas.onWindowResizeHandler (c, h)
  = (c, mkHost (resize_height (innerHeight (window h))
                  (resize_width (innerWidth (window h)) (canvas h)))
          (window h) (trace h ++ viewport_sync_calls (window h))).
Proof.
  destruct h as [cv w t]. unfold ClassCanvas.onWindowResizeHandler.
  unfold ClassCanvas.setSize, window_innerWidth, window_innerHeight.
  run_script. rewrite <- !app_assoc. reflexivity.
Qed.

Lemma proto_handler_run (c : ProtoCanvas.Canvas) (h : Host) :
  exec ProtoCanvas.onWindowResizeHandler (c, h)
  = (ProtoCanvas.mkCanvas (ProtoCanvas.fullWindow c) (ProtoCanvas.pathStarted c)
       (innerWidth (window h)) (innerHeight (window h)),
     mkHost (resize_height (innerHeight (window h))
               (resize_width (innerWidth (window h)) (canvas h)))
       (window h) (trace h ++ viewport_sync_calls (window h))).
Proof.
  destruct h as [cv w t], c as [fw ps wd ht].
  unfold ProtoCanvas.onWindowResizeHandler.
  unfold ProtoCanvas.setSize, window_innerWidth, window_innerHeight.
  run_script. rewrite <- !app_assoc. reflexivity.
Qed.

(** Running the listeners leaves the window and the facade's flags alone;
    if one of them listens to ["resize"], canvas and cached size end up
    equal to the viewport and the current path is gone; otherwise nothing
    happens. *)
Lemma class_run_listeners (ls : list (string * Listener)) :
  forall (c : ClassCanvas.Canvas) (h : Host),
    let s' := exec (run_listeners ClassCanvas.listener_body ls) (c, h) in
    fst s' = c
    /\ window (snd s') = window h
    /\ (if has_resize ls
        then cv_width (canvas (snd s')) = innerWidth (window h)
             /\ cv_height (canvas (snd s')) = innerHeight (window h)
             /\ ctx_path (canvas (snd s')) = []
        else s' = (c, h)).
Proof.
  induction ls as [| [type l] ls IH]; intros c h; cbn zeta.
  - repeat split.
  - cbn [run_listeners has_resize existsb fst].
    destruct (String.eqb type "resize") eqn:E.
    + rewrite exec_bind. destruct l. cbn [ClassCanvas.listener_body].
      fold (exec ClassCanvas.onWindowResizeHandler (c, h)).
      rewrite class_handler_run.
      specialize (IH c (mkHost (resize_height (innerHeight (window h))
                                  (resize_width (innerWidth (window h)) (canvas h)))
                          (window h) (trace h ++ viewport_sync_calls (window h)))).
      cbn zeta in IH. destruct IH as [Hc [Hw Hrest]].
      split; [exact Hc | split; [exact Hw |]].
      cbn [orb]. fold (has_resize ls) in Hrest.
      destruct (has_resize ls).
      * exact Hrest.
      * rewrite Hrest. repeat split.
    + cbn [orb]. apply IH.
Qed.

Lemma proto_run_listeners (ls : list (string * Listener)) :
  forall (c : ProtoCanvas.Canvas) (h : Host),
    let s' := exec (run_listeners ProtoCanvas.listener_body ls) (c, h) in
    ProtoCanvas.pathStarted (fst s') = ProtoCanvas.pathStarted c
    /\ ProtoCanvas.fullWindow (fst s') = ProtoCanvas.fullWindow c
    /\ window (snd s') = window h
    /\ (if has_resize ls
        then ProtoCanvas.width (fst s') = innerWidth (window h)
             /\ ProtoCanvas.height (fst s') = innerHeight (window h)
             /\ cv_width (canvas (snd s')) = innerWidth (window h)
             /\ cv_height (canvas (snd s')) = innerHeight (window h)
             /\ ctx_path (canvas (snd s')) = []
        else s' = (c, h)).
Proof.
  induction ls as [| [type l] ls IH]; intros c h; cbn zeta.
  - repeat split.
  - cbn [run_listeners has_resize existsb fst].
    destruct (String.eqb type "resize") eqn:E.
    + rewrite exec_bind. destruct l. cbn [ProtoCanvas.listener_body].
      fold (exec ProtoCanvas.onWindowResizeHandler (c, h)).
      rewrite proto_handler_run.
      specialize (IH (ProtoCanvas.mkCanvas (ProtoCanvas.fullWindow c)
                        (ProtoCanvas.pathStarted c)
                        (innerWidth (window h)) (innerHeight (window h)))
                     (mkHost (resize_height (innerHeight (window h))
                                (resize_width (innerWidth (window h)) (canvas h)))
                        (window h) (trace h ++ viewport_sync_calls (window h)))).
      cbn zeta in IH. destruct IH as [Hp [Hf [Hw Hrest]]].
      split; [exact Hp | split; [exact Hf | split; [exact Hw |]]].
      cbn [orb]. fold (has_resize ls) in Hrest.
      destruct (has_resize ls).
      * exact Hrest.
      * rewrite Hrest. repeat split.
    + cbn [orb]. apply IH.
Qed.

Lemma last_cons {A : Type} (l : list A) :
  forall (a d : A), last (a :: l) d = last l a.
Proof.
  induction l as [| b l IH]; intros a d.
  - reflexivity.
  - change (last (a :: b :: l) d) with (last (b :: l) d).
    rewrite (IH b d), (IH b a). reflexivity.
Qed.

Lemma exec_resize_event {F : Type} (body : Listener -> M F unit)
    (w h : number) (c : F) (hst : Host) :
  exec (resize_event body w h) (c, hst)
  = exec (run_listeners body (listeners (window hst)))
      (c, mkHost (canvas hst) (set_viewport w h (window hst)) (trace hst)).
Proof. reflexivity. Qed.

(** One viewport change, from any state. *)
Lemma class_resize_event_run (w h : number) (c : ClassCanvas.Canvas) (hst : Host) :
  let s' := exec (resize_event ClassCanvas.listener_body w h) (c, hst) in
  fst s' = c
  /\ window (snd s') = set_viewport w h (window hst)
  /\ (if has_resize (listeners (window hst))
      then cv_width (canvas (snd s')) = w
           /\ cv_height (canvas (snd s')) = h
           /\ ctx_path (canvas (snd s')) = []
      else snd s' = mkHost (canvas hst) (set_viewport w h (window hst)) (trace hst)).
Proof.
  cbn zeta. rewrite exec_resize_event.
  pose proof (class_run_listeners (listeners (window hst)) c
                (mkHost (canvas hst) (set_viewport w h (window hst)) (trace hst)))
    as H.
  cbn zeta in H. destruct H as [Hc [Hw Hrest]].
  split; [exact Hc | split; [exact Hw |]].
  destruct (has_resize (listeners (window hst))).
  - exact Hrest.
  - rewrite Hrest. reflexivity.
Qed.

Lemma proto_resize_event_run (w h : number) (c : ProtoCanvas.Canvas) (hst : Host) :
  let s' := exec (resize_event ProtoCanvas.listener_body w h) (c, hst) in
  ProtoCanvas.pathStarted (fst s') = ProtoCanvas.pathStarted c
  /\ ProtoCanvas.fullWindow (fst s') = ProtoCanvas.fullWindow c
  /\ window (snd s') = set_viewport w h (window hst)
  /\ (if has_resize (listeners (window hst))
      then ProtoCanvas.width (fst s') = w
           /\ ProtoCanvas.height (fst s') = h
           /\ cv_width (canvas (snd s')) = w
           /\ cv_height (canvas (snd s')) = h
           /\ ctx_path (canvas (snd s')) = []
      else s' = (c, mkHost (canvas hst) (set_viewport w h (window hst)) (trace hst))).
Proof.
  cbn zeta. rewrite exec_resize_event.
  pose proof (proto_run_listeners (listeners (window hst)) c
                (mkHost (canvas hst) (set_viewport w h (window hst)) (trace hst)))
    as H.
  cbn zeta in H. destruct H as [Hp [Hf [Hw Hrest]]].
  split; [exact Hp | split; [exact Hf | split; [exact Hw |]]].
  destruct (has_resize (listeners (window hst))); exact Hrest.
Qed.

(** Tracking is kept by every run of viewport changes, and the viewport
    ends at the last change. *)
Lemma class_events_run (evs : list (number * number)) :
  forall s : St ClassCanvas.Canvas,
    class_tracking s ->
    let s' := exec (script (class_resize_events evs)) s in
    class_tracking s'
    /\ fst s' = fst s
    /\ viewport (snd s') = last evs (viewport (snd s)).
Proof.
  induction evs as [| [w h] evs IH]; intros [c hst] Ht; cbn zeta.
  - repeat split; apply Ht.
  - unfold class_resize_events. cbn [map fst snd].
    rewrite exec_script_cons. fold (class_resize_events evs).
    pose proof (class_resize_event_run w h c hst) as H. cbn zeta in H.
    destruct Ht as [Hl Hsz]. cbn [snd] in Hl. rewrite Hl in H.
    destruct (exec (resize_event ClassCanvas.listener_body w h) (c, hst))
      as [c1 h1] eqn:E1.
    cbn [fst snd] in H. destruct H as [Hc [Hw [Hcw [Hch _]]]].
    assert (T1 : class_tracking (c1, h1)).
    { unfold class_tracking. cbn [snd]. rewrite Hw. cbn. auto. }
    destruct (IH (c1, h1) T1) as [T' [Hf Hv]].
    split; [exact T' | split].
    + rewrite Hf. exact Hc.
    + rewrite Hv, last_cons. unfold viewport. cbn [snd]. rewrite Hw. reflexivity.
Qed.

Lemma proto_events_run (evs : list (number * number)) :
  forall s : St ProtoCanvas.Canvas,
    proto_tracking s ->
    let s' := exec (script (proto_resize_events evs)) s in
    proto_tracking s'
    /\ ProtoCanvas.pathStarted (fst s') = ProtoCanvas.pathStarted (fst s)
    /\ ProtoCanvas.fullWindow (fst s') = ProtoCanvas.fullWindow (fst s)
    /\ viewport (snd s') = last evs (viewport (snd s)).
Proof.
  induction evs as [| [w h] evs IH]; intros [c hst] Ht; cbn zeta.
  - repeat split; apply Ht.
  - unfold proto_resize_events. cbn [map fst snd].
    rewrite exec_script_cons. fold (proto_resize_events evs).
    pose proof (proto_resize_event_run w h c hst) as H. cbn zeta in H.
    destruct Ht as [Hl Hsz]. cbn [snd] in Hl. rewrite Hl in H.
    destruct (exec (resize_event ProtoCanvas.listener_body w h) (c, hst))
      as [c1 h1] eqn:E1.
    cbn [fst snd] in H.
    destruct H as [Hp [Hfw [Hw [Hwd [Hht [Hcw [Hch _]]]]]]].
    assert (T1 : proto_tracking (c1, h1)).
    { unfold proto_tracking. cbn [fst snd]. rewrite Hw. cbn. auto. }
    destruct (IH (c1, h1) T1) as [T' [Hp' [Hf' Hv]]].
    split; [exact T' | split; [| split]].
    + rewrite Hp'. exact Hp.
    + rewrite Hf'. exact Hfw.
    + rewrite Hv, last_cons. unfold viewport. cbn [snd]. rewrite Hw. reflexivity.
Qed.

(** *** setSize *)

(** The class keeps no copy of the size: after [setSize(100, 50)] its
    facade still has no [width], so the statement of C4 read on
    [src/lib/index.js] fails. *)
Lemma C4_class_keeps_no_size :
  let s := exec (ClassCanvas.setSize 100 50)
             (ClassCanvas.mkCanvas (given true) false,
              mkHost (blank_canvas 300 150) (mkWindow 800 600 []) []) in
  ~ (cv_width (canvas (snd s)) = 100
     /\ cv_height (canvas (snd s)) = 50
     /\ ClassCanvas.width (fst s) = given 100
     /\ ClassCanvas.height (fst s) = given 50).
Proof.
  cbn zeta. intros [_ [_ [H _]]]. discriminate H.
Qed.

(** C4, amended. For every [w] and [h], [setSize(w, h)] assigns [w] to
    [canvas.width] and then [h] to [canvas.height] in both
    implementations, so that the backing pixel dimensions of the canvas
    are [w] and [h] whenever these are sizes a canvas stores as assigned
    (0 to 2^31 - 1). The prototype also stores [w] and [h], whatever they
    are, in the facade's [width] and [height]; the class has no such
    fields and returns the facade as it was. *)
Theorem C4_setSize_sets_dimensions :
  (forall w h c hst,
     let s := exec (ProtoCanvas.setSize w h) (c, hst) in
     ProtoCanvas.width (fst s) = w
     /\ ProtoCanvas.height (fst s) = h
     /\ trace (snd s) = trace hst ++ [CanvasSetWidth w; CanvasSetHeight h]
     /\ (canvas_size_ok w -> cv_width (canvas (snd s)) = w)
     /\ (canvas_size_ok h -> cv_height (canvas (snd s)) = h))
  /\ (forall w h c hst,
     let s := exec (ClassCanvas.setSize w h) (c, hst) in
     fst s = c
     /\ ClassCanvas.width (fst s) = undefined
     /\ ClassCanvas.height (fst s) = undefined
     /\ trace (snd s) = trace hst ++ [CanvasSetWidth w; CanvasSetHeight h]
     /\ (canvas_size_ok w -> cv_width (canvas (snd s)) = w)
     /\ (canvas_size_ok h -> cv_height (canvas (snd s)) = h)).
Proof.
  split; intros w h c hst; cbn zeta; repeat split;
    simpl; rewrite <- ?app_assoc; reflexivity.
Qed.

(** C4 on a canvas of 300 by 150 resized to 100 by 50. *)
Lemma C4_setSize_sets_dimensions_witness :
  canvas_size_ok 100
  /\ canvas_size_ok 50
  /\ cv_width
       (canvas (snd (exec (ProtoCanvas.setSize 100 50)
                       (ProtoCanvas.mkCanvas (given false) false 300 150,
                        mkHost (blank_canvas 300 150) (mkWindow 800 600 []) []))))
     = 100
  /\ cv_height
       (canvas (snd (exec (ProtoCanvas.setSize 100 50)
                       (ProtoCanvas.mkCanvas (given false) false 300 150,
                        mkHost (blank_canvas 300 150) (mkWindow 800 600 []) []))))
     = 50.
Proof.
  assert (H100 : canvas_size_ok 100) by (unfold canvas_size_ok; lia).
  assert (H50 : canvas_size_ok 50) by (unfold canvas_size_ok; lia).
  split; [exact H100 | split; [exact H50 |]].
  destruct (proj1 C4_setSize_sets_dimensions 100 50
              (ProtoCanvas.mkCanvas (given false) false 300 150)
              (mkHost (blank_canvas 300 150) (mkWindow 800 600 []) []))
    as [_ [_ [_ [Hw Hh]]]].
  split; [apply Hw; exact H100 | apply Hh; exact H50].
Defined.

(** C9. For every [w], [h] and prior state, [setSize(w, h)] leaves
    [pathStarted] as it was, while the resize empties the current path of
    the context. So a run of [addPoint] followed by [setSize], or by a
    viewport change delivered to the registered listener, ends with the
    flag true and no path on the context. Class and prototype agree. *)
Theorem C9_setSize_keeps_flag :
  (forall w h c hst,
     let s := exec (ClassCanvas.setSize w h) (c, hst) in
     ClassCanvas.pathStarted (fst s) = ClassCanvas.pathStarted c
     /\ ctx_path (canvas (snd s)) = [])
  /\ (forall w h c hst,
     let s := exec (ProtoCanvas.setSize w h) (c, hst) in
     ProtoCanvas.pathStarted (fst s) = ProtoCanvas.pathStarted c
     /\ ctx_path (canvas (snd s)) = [])
  /\ (forall p pts w h c hst,
     let s := exec (script [class_addPoints (p :: pts); ClassCanvas.setSize w h])
                (c, hst) in
     ClassCanvas.pathStarted (fst s) = true
     /\ ctx_path (canvas (snd s)) = [])
  /\ (forall p pts w h c hst,
     let s := exec (script [proto_addPoints (p :: pts); ProtoCanvas.setSize w h])
                (c, hst) in
     ProtoCanvas.pathStarted (fst s) = true
     /\ ctx_path (canvas (snd s)) = [])
  /\ (forall p pts w h c hst,
     let s := exec (script [class_addPoints (p :: pts);
                            resize_event ClassCanvas.listener_body w h])
                (c, perform (WindowAddEventListener "resize"
                               BoundOnWindowResizeHandler) hst) in
     ClassCanvas.pathStarted (fst s) = true
     /\ ctx_path (canvas (snd s)) = [])
  /\ (forall p pts w h c hst,
     let s := exec (script [proto_addPoints (p :: pts);
                            resize_event ProtoCanvas.listener_body w h])
                (c, perform (WindowAddEventListener "resize"
                               BoundOnWindowResizeHandler) hst) in
     ProtoCanvas.pathStarted (fst s) = true
     /\ ctx_path (canvas (snd s)) = []).
Proof.
  split; [| split; [| split; [| split; [| split]]]].
  - intros w h c hst. split; reflexivity.
  - intros w h c hst. split; reflexivity.
  - intros p pts w h c hst s. subst s.
    destruct (class_addPoints_run p pts c hst) as [cv' [E _]].
    rewrite exec_script_cons, E. split; reflexivity.
  - intros p pts w h c hst s. subst s.
    destruct (proto_addPoints_run p pts c hst) as [cv' [E _]].
    rewrite exec_script_cons, E. split; reflexivity.
  - intros p pts w h c hst s. subst s.
    destruct (class_addPoints_run p pts c
                (perform (WindowAddEventListener "resize"
                            BoundOnWindowResizeHandler) hst)) as [cv' [E _]].
    rewrite exec_script_cons, E, exec_script_cons, exec_script_nil.
    match goal with
    | |- context [exec (resize_event _ w h) (?c1, ?h1)] =>
        pose proof (class_resize_event_run w h c1 h1) as H
    end.
    cbn zeta in H. destruct H as [Hc [_ Hrest]].
    cbn [window perform] in Hrest.
    change (react_window (WindowAddEventListener "resize"
                            BoundOnWindowResizeHandler) (window hst))
      with (add_listener "resize" BoundOnWindowResizeHandler (window hst))
      in Hrest.
    rewrite has_resize_add_listener in Hrest.
    rewrite Hc. split; [reflexivity | apply Hrest].
  - intros p pts w h c hst s. subst s.
    destruct (proto_addPoints_run p pts c
                (perform (WindowAddEventListener "resize"
                            BoundOnWindowResizeHandler) hst)) as [cv' [E _]].
    rewrite exec_script_cons, E, exec_script_cons, exec_script_nil.
    match goal with
    | |- context [exec (resize_event _ w h) (?c1, ?h1)] =>
        pose proof (proto_resize_event_run w h c1 h1) as H
    end.
    cbn zeta in H. destruct H as [Hp [_ [_ Hrest]]].
    cbn [window perform] in Hrest.
    change (react_window (WindowAddEventListener "resize"
                            BoundOnWindowResizeHandler) (window hst))
      with (add_listener "resize" BoundOnWindowResizeHandler (window hst))
      in Hrest.
    rewrite has_resize_add_listener in Hrest.
    rewrite Hp. split; [reflexivity | apply Hrest].
Qed.

(** *** init *)

Lemma class_init_fullWindow (ps : bool) (h : Host) :
  exec ClassCanvas.init (ClassCanvas.mkCanvas (given true) ps, h)
  = (ClassCanvas.mkCanvas (given true) ps,
     mkHost (resize_height (innerHeight (window h))
               (resize_width (innerWidth (window h)) (canvas h)))
       (add_listener "resize" BoundOnWindowResizeHandler (window h))
       (trace h ++ class_init_calls (window h))).
Proof.
  destruct h as [cv w t]. unfold ClassCanvas.init.
  unfold ClassCanvas.setSize, window_innerWidth, window_innerHeight.
  run_script. rewrite <- !app_assoc. reflexivity.
Qed.

Lemma proto_init_fullWindow (ps : bool) (wd ht : number) (h : Host) :
  exec ProtoCanvas.init (ProtoCanvas.mkCanvas (given true) ps wd ht, h)
  = (ProtoCanvas.mkCanvas (given true) ps
       (innerWidth (window h)) (innerHeight (window h)),
     mkHost (resize_height (innerHeight (window h))
               (resize_width (innerWidth (window h))
                  (set_display "block" (canvas h))))
       (add_listener "resize" BoundOnWindowResizeHandler (window h))
       (trace h ++ proto_init_calls (window h))).
Proof.
  destruct h as [cv w t]. unfold ProtoCanvas.init.
  unfold ProtoCanvas.setSize, window_innerWidth, window_innerHeight.
  run_script. rewrite <- !app_assoc. reflexivity.
Qed.

(** The class has no [width] to copy the size into: on a canvas of
    100 by 50 constructed with [fullWindow = false], [init] leaves the
    facade without [width] and [height], so the statement of C5 read on
    [src/lib/index.js] fails. *)
Lemma C5_class_init_copies_nothing :
  match ClassCanvas.new_Canvas (given (blank_canvas 100 50)) (given false)
          page_800_600 with
  | Constructed c h =>
      ~ (ClassCanvas.width (fst (exec ClassCanvas.init (c, h))) = given 100
         /\ ClassCanvas.height (fst (exec ClassCanvas.init (c, h))) = given 50)
  | Threw _ _ => False
  end.
Proof.
  simpl. intros [H _]. discriminate H.
Qed.

(** C5, amended. In the prototype, for every canvas element [el] and
    every facade constructed on it with [fullWindow = false] (whatever
    [autoInit]), [init] copies the backing pixel dimensions of [el] into
    the facade's [width] and [height] and changes neither the element nor
    the window; on a canvas of 100 by 50 this gives [width = 100] and
    [height = 50]. The same holds from any facade state whose
    [fullWindow] is false. In the class, [init] with [fullWindow = false]
    changes nothing at all, and the facade has no [width] or [height]. *)
Theorem C5_init_reads_canvas_size :
  (forall el autoInit p,
     match ProtoCanvas.new_Canvas (given el) (given false) autoInit p with
     | Constructed c h =>
         let s := exec ProtoCanvas.init (c, h) in
         ProtoCanvas.width (fst s) = cv_width el
         /\ ProtoCanvas.height (fst s) = cv_height el
         /\ canvas (snd s) = el
         /\ window (snd s) = pg_window p
     | Threw _ _ => False
     end)
  /\ (forall autoInit p,
     match ProtoCanvas.new_Canvas (given (blank_canvas 100 50)) (given false)
             autoInit p with
     | Constructed c h =>
         ProtoCanvas.width (fst (exec ProtoCanvas.init (c, h))) = 100
         /\ ProtoCanvas.height (fst (exec ProtoCanvas.init (c, h))) = 50
     | Threw _ _ => False
     end)
  /\ (forall ps wd ht h,
     exec ProtoCanvas.init (ProtoCanvas.mkCanvas (given false) ps wd ht, h)
     = (ProtoCanvas.mkCanvas (given false) ps
          (cv_width (canvas h)) (cv_height (canvas h)),
        mkHost (canvas h) (window h)
          (trace h ++ [CanvasGetWidth; CanvasGetHeight])))
  /\ (forall el p,
     match ClassCanvas.new_Canvas (given el) (given false) p with
     | Constructed c h =>
         exec ClassCanvas.init (c, h) = (c, h)
         /\ canvas h = el
         /\ ClassCanvas.width c = undefined
         /\ ClassCanvas.height c = undefined
     | Threw _ _ => False
     end).
Proof.
  split; [| split; [| split]].
  - intros el [| | []] p; simpl; repeat split.
  - intros [| | []] p; simpl; repeat split.
  - intros ps wd ht [cv w t]. unfold ProtoCanvas.init, canvas_width, canvas_height.
    run_script. rewrite <- !app_assoc. reflexivity.
  - intros el p. simpl. repeat split.
Qed.

(** The class has no [width] to keep in step with the viewport: after
    [init] with [fullWindow = true] in a window of 800 by 600 its facade
    still has no [width], so the statement of C6 read on
    [src/lib/index.js] fails. *)
Lemma C6_class_follows_canvas_only :
  match ClassCanvas.new_Canvas undefined (given true) page_800_600 with
  | Constructed c h =>
      ~ (ClassCanvas.width (fst (exec ClassCanvas.init (c, h))) = given 800
         /\ ClassCanvas.height (fst (exec ClassCanvas.init (c, h))) = given 600)
  | Threw _ _ => False
  end.
Proof.
  simpl. intros [H _]. discriminate H.
Qed.

Lemma class_init_tracking (ps : bool) (h : Host) :
  class_tracking (exec ClassCanvas.init (ClassCanvas.mkCanvas (given true) ps, h))
  /\ viewport (snd (exec ClassCanvas.init
                      (ClassCanvas.mkCanvas (given true) ps, h)))
     = viewport h.
Proof.
  rewrite class_init_fullWindow. unfold class_tracking, viewport. cbn [fst snd window canvas].
  destruct (add_listener_viewport "resize" BoundOnWindowResizeHandler (window h))
    as [Hw Hh].
  rewrite has_resize_add_listener, Hw, Hh. repeat split.
Qed.

Lemma proto_init_tracking (ps : bool) (wd ht : number) (h : Host) :
  proto_tracking (exec ProtoCanvas.init
                    (ProtoCanvas.mkCanvas (given true) ps wd ht, h))
  /\ viewport (snd (exec ProtoCanvas.init
                      (ProtoCanvas.mkCanvas (given true) ps wd ht, h)))
     = viewport h.
Proof.
  rewrite proto_init_fullWindow. unfold proto_tracking, viewport.
  cbn [fst snd window canvas].
  destruct (add_listener_viewport "resize" BoundOnWindowResizeHandler (window h))
    as [Hw Hh].
  rewrite has_resize_add_listener, Hw, Hh. repeat split.
Qed.

(** C6, amended. A facade constructed on a canvas element with
    [fullWindow = true] (or with [fullWindow] left out) has [fullWindow]
    true. In the prototype, for
    every such facade, after [init] followed by any run [evs] of viewport
    changes, [width] and [height] of the facade and of the canvas equal
    the viewport of that moment: the viewport at the call of [init] when
    [evs] is empty, the last change otherwise; and from any state with a
    registered ["resize"] listener one viewport change to [w] by [h] sets
    all four to [w] and [h]. In the class the canvas follows the viewport
    in the same way, but the facade has no [width] or [height]. *)
Theorem C6_fullWindow_follows_viewport :
  (forall el (omitted : bool) autoInit p,
     match ProtoCanvas.new_Canvas (given el)
             (if omitted then undefined else given true) autoInit p with
     | Constructed c _ => ProtoCanvas.fullWindow c = given true
     | Threw _ _ => False
     end)
  /\ (forall el (omitted : bool) p,
     match ClassCanvas.new_Canvas (given el)
             (if omitted then undefined else given true) p with
     | Constructed c _ => ClassCanvas.fullWindow c = given true
     | Threw _ _ => False
     end)
  /\ (forall ps wd ht h evs,
     let s := exec (script (ProtoCanvas.init :: proto_resize_events evs))
                (ProtoCanvas.mkCanvas (given true) ps wd ht, h) in
     let vp := last evs (viewport h) in
     ProtoCanvas.width (fst s) = fst vp
     /\ ProtoCanvas.height (fst s) = snd vp
     /\ cv_width (canvas (snd s)) = fst vp
     /\ cv_height (canvas (snd s)) = snd vp
     /\ viewport (snd s) = vp)
  /\ (forall w h c hst,
     has_resize (listeners (window hst)) = true ->
     let s := exec (resize_event ProtoCanvas.listener_body w h) (c, hst) in
     ProtoCanvas.width (fst s) = w
     /\ ProtoCanvas.height (fst s) = h
     /\ cv_width (canvas (snd s)) = w
     /\ cv_height (canvas (snd s)) = h
     /\ viewport (snd s) = (w, h))
  /\ (forall ps h evs,
     let s := exec (script (ClassCanvas.init :: class_resize_events evs))
                (ClassCanvas.mkCanvas (given true) ps, h) in
     let vp := last evs (viewport h) in
     cv_width (canvas (snd s)) = fst vp
     /\ cv_height (canvas (snd s)) = snd vp
     /\ viewport (snd s) = vp
     /\ ClassCanvas.width (fst s) = undefined
     /\ ClassCanvas.height (fst s) = undefined).
Proof.
  split; [| split; [| split; [| split]]].
  - intros el [] [| | []] p; reflexivity.
  - intros el [] p; reflexivity.
  - intros ps wd ht h evs s vp. subst s vp.
    rewrite exec_script_cons.
    destruct (proto_init_tracking ps wd ht h) as [T V].
    destruct (proto_events_run evs _ T) as [[_ [Hwd [Hht [Hcw Hch]]]] [_ [_ Hv]]].
    rewrite V in Hv. rewrite Hwd, Hht, Hcw, Hch, <- Hv.
    repeat split.
  - intros w h c hst Hl s. subst s.
    pose proof (proto_resize_event_run w h c hst) as H. cbn zeta in H.
    rewrite Hl in H. destruct H as [_ [_ [Hw [Hwd [Hht [Hcw [Hch _]]]]]]].
    unfold viewport. rewrite Hw. repeat split; assumption.
  - intros ps h evs s vp. subst s vp.
    rewrite exec_script_cons.
    destruct (class_init_tracking ps h) as [T V].
    destruct (class_events_run evs _ T) as [[_ [Hcw Hch]] [_ Hv]].
    rewrite V in Hv. rewrite Hcw, Hch, <- Hv.
    repeat split.
Qed.

(** C6 at a concrete run: a full-window facade whose window goes from
    800 by 600 to 1024 by 768 and then to 640 by 480. *)
Lemma C6_fullWindow_follows_viewport_witness :
  has_resize (listeners (mkWindow 800 600 [("resize", BoundOnWindowResizeHandler)]))
  = true
  /\ ProtoCanvas.width
       (fst (exec (resize_event ProtoCanvas.listener_body 1024 768)
               (ProtoCanvas.mkCanvas (given true) false 800 600,
                mkHost (blank_canvas 800 600)
                  (mkWindow 800 600 [("resize", BoundOnWindowResizeHandler)]) [])))
     = 1024.
Proof.
  split; [reflexivity |].
  apply (proj1 (proj1 (proj2 (proj2 (proj2 C6_fullWindow_follows_viewport)))
                  1024 768
                  (ProtoCanvas.mkCanvas (given true) false 800 600)
                  (mkHost (blank_canvas 800 600)
                     (mkWindow 800 600 [("resize", BoundOnWindowResizeHandler)]) [])
                  eq_refl)).
Defined.

(** ** background *)


Example proto_background_scenario :
  let h := mkHost (set_fillStyle (given "blue") (blank_canvas 100 50))
             (mkWindow 800 600 []) [] in
  let s := exec (script [ProtoCanvas.background (given "red");
                         ProtoCanvas.rect 1 2 3 4])
             (ProtoCanvas.mkCanvas (given false) false 100 50, h) in
  cv_bitmap (canvas (snd s))
  = [PaintRect "red" 0 0 100 50; PaintRect "blue" 1 2 3 4].
Proof. reflexivity. Qed.

(** ** Construction *)



(** C10. With [null] as canvas element the two constructors part ways.
    The class treats [null] like a missing argument: it creates a canvas
    element, attaches it to the body and then obtains the context. The
    prototype only tests for [undefined]: with [null] it creates nothing
    and throws a [TypeError] at [this.canvas.getContext], whereas with the
    argument left out it creates and attaches a canvas as the class does. *)
Theorem C10_null_canvas_element :
  (forall fw p,
     ClassCanvas.new_Canvas null fw p = ClassCanvas.new_Canvas undefined fw p
     /\ ClassCanvas.new_Canvas null fw p
        = Constructed (ClassCanvas.mkCanvas (default_to (given true) fw) false)
            (mkHost (set_attached true created_canvas) (pg_window p)
               (pg_trace p ++ creation_calls ++ [CanvasGetContext "2d"])))
  /\ (forall fw autoInit p,
     ProtoCanvas.new_Canvas null fw autoInit p = Threw TypeError p)
  /\ (forall fw p,
     ProtoCanvas.new_Canvas undefined fw (given false) p
     = Constructed (ProtoCanvas.mkCanvas (default_to (given true) fw) false 0 0)
         (mkHost (set_attached true created_canvas) (pg_window p)
            (pg_trace p ++ creation_calls ++ [CanvasGetContext "2d"])))
  /\ (forall fw autoInit p,
     ProtoCanvas.new_Canvas null fw autoInit p
     <> ProtoCanvas.new_Canvas undefined fw autoInit p).
Proof.
  split; [| split; [| split]].
  - intros fw p. split; [reflexivity |].
    destruct p as [w t]. unfold ClassCanvas.new_Canvas. simpl.
    unfold perform. simpl. rewrite <- !app_assoc. reflexivity.
  - intros fw autoInit p. reflexivity.
  - intros fw p. destruct p as [w t]. unfold ProtoCanvas.new_Canvas. simpl.
    unfold perform. simpl. rewrite <- !app_assoc. reflexivity.
  - intros fw autoInit p. unfold ProtoCanvas.new_Canvas. simpl.
    destruct (truthy (default_to (given true) autoInit)); discriminate.
Qed.

(** ** Arbitrary scripts *)

Lemma exec_script_app {F : Type} (ms1 ms2 : list (M F unit)) :
  forall s : St F,
    exec (script (ms1 ++ ms2)) s = exec (script ms2) (exec (script ms1) s).
Proof.
  induction ms1 as [| m ms1 IH]; intros s.
  - reflexivity.
  - rewrite <- app_comm_cons, !exec_script_cons. apply IH.
Qed.

(** One step moves the flag as [flag_step] says and keeps [fullWindow]. *)
Lemma class_run_flag (o : Op) (c : ClassCanvas.Canvas) (h : Host) :
  ClassCanvas.pathStarted (fst (exec (class_run o) (c, h)))
  = flag_step (ClassCanvas.pathStarted c) o
  /\ ClassCanvas.fullWindow (fst (exec (class_run o) (c, h)))
     = ClassCanvas.fullWindow c.
Proof.
  destruct o; cbn [class_run flag_step];
    try (destruct c as [fw []]; case_args; split; reflexivity).
  destruct (class_resize_event_run w h0 c h) as [Hc _].
  rewrite Hc. split; reflexivity.
Qed.

Lemma proto_run_flag (o : ProtoOp) (c : ProtoCanvas.Canvas) (h : Host) :
  ProtoCanvas.pathStarted (fst (exec (proto_run o) (c, h)))
  = proto_flag_step (ProtoCanvas.pathStarted c) o
  /\ ProtoCanvas.fullWindow (fst (exec (proto_run o) (c, h)))
     = ProtoCanvas.fullWindow c.
Proof.
  destruct o as [o | color]; cbn [proto_run proto_flag_step].
  - destruct o; cbn [proto_run_shared flag_step];
      try (destruct c as [fw [] wd ht]; case_args; split; reflexivity).
    destruct (proto_resize_event_run w h0 c h) as [Hp [Hf _]].
    split; assumption.
  - destruct color; split; reflexivity.
Qed.

(** X1. Over any script of method calls and viewport changes, in any
    order and from any state, [pathStarted] at the end is decided by the
    last [addPoint], [stroke] or [fill] of the script (true after
    [addPoint], false after the other two) and is the initial value when
    there is none: no other method, [init], [setSize], [arc],
    [background] and the resize listener included, ever writes the flag. *)
Theorem X1_flag_decided_by_last_path_call :
  (forall ops c h,
     ClassCanvas.pathStarted (fst (exec (script (map class_run ops)) (c, h)))
     = fold_left flag_step ops (ClassCanvas.pathStarted c))
  /\ (forall ops c h,
     ProtoCanvas.pathStarted (fst (exec (script (map proto_run ops)) (c, h)))
     = fold_left proto_flag_step ops (ProtoCanvas.pathStarted c)).
Proof.
  split.
  - induction ops as [| o ops IH]; intros c h.
    + reflexivity.
    + cbn [map fold_left]. rewrite exec_script_cons.
      destruct (class_run_flag o c h) as [Hp _].
      destruct (exec (class_run o) (c, h)) as [c1 h1].
      rewrite IH. cbn [fst] in Hp. rewrite Hp. reflexivity.
  - induction ops as [| o ops IH]; intros c h.
    + reflexivity.
    + cbn [map fold_left]. rewrite exec_script_cons.
      destruct (proto_run_flag o c h) as [Hp _].
      destruct (exec (proto_run o) (c, h)) as [c1 h1].
      rewrite IH. cbn [fst] in Hp. rewrite Hp. reflexivity.
Qed.

Lemma add_listener_resize (l : Listener) (w : Window) :
  listeners (add_listener "resize" l w)
  = listeners w
      ++ (if has_resize (listeners w) then [] else [("resize", l)]).
Proof.
  unfold add_listener, has_resize.
  assert (E : existsb (fun e => String.eqb (fst e) "resize" && Listener_eqb (snd e) l)
                (listeners w)
              = existsb (fun e => String.eqb (fst e) "resize") (listeners w)).
  { induction (listeners w) as [| e ls IH]; [reflexivity |].
    cbn [existsb]. rewrite IH. unfold Listener_eqb. rewrite andb_true_r.
    reflexivity. }
  rewrite E. clear E. destruct (existsb _ (listeners w)); cbn.
  - rewrite app_nil_r. reflexivity.
  - reflexivity.
Qed.

(** One step changes the registered listeners only when it is [init] on
    a full-window facade with no ["resize"] listener yet. *)
Lemma class_run_listeners_step (o : Op) (c : ClassCanvas.Canvas) (h : Host) :
  listeners (window (snd (exec (class_run o) (c, h))))
  = listeners (window h)
      ++ added_listener (has_resize (listeners (window h)))
           (truthy (ClassCanvas.fullWindow c)) (is_init o).
Proof.
  unfold added_listener.
  destruct o; cbn [class_run is_init];
    rewrite ?andb_false_r, ?andb_true_r, ?app_nil_r;
    try (destruct c as [fw ps]; case_args; destruct ps; reflexivity).
  - destruct c as [fw ps]. cbn [ClassCanvas.fullWindow].
    destruct fw as [| | []];
      try (rewrite andb_false_r, app_nil_r; reflexivity).
    rewrite class_init_fullWindow. cbn [snd window truthy].
    rewrite add_listener_resize, andb_true_r.
    destruct (has_resize (listeners (window h))); reflexivity.
  - destruct (class_resize_event_run w h0 c h) as [_ [Hw _]].
    rewrite Hw. reflexivity.
Qed.

Lemma proto_run_listeners_step (o : ProtoOp) (c : ProtoCanvas.Canvas) (h : Host) :
  listeners (window (snd (exec (proto_run o) (c, h))))
  = listeners (window h)
      ++ added_listener (has_resize (listeners (window h)))
           (truthy (ProtoCanvas.fullWindow c)) (proto_is_init o).
Proof.
  unfold added_listener.
  destruct o as [o | color]; cbn [proto_run proto_is_init].
  - destruct o; cbn [proto_run_shared is_init];
      rewrite ?andb_false_r, ?andb_true_r, ?app_nil_r;
      try (destruct c as [fw ps wd ht]; case_args; destruct ps; reflexivity).
    + destruct c as [fw ps wd ht]. cbn [ProtoCanvas.fullWindow].
      destruct fw as [| | []];
        try (rewrite andb_false_r, app_nil_r; reflexivity).
      rewrite proto_init_fullWindow. cbn [snd window truthy].
      rewrite add_listener_resize, andb_true_r.
      destruct (has_resize (listeners (window h))); reflexivity.
    + destruct (proto_resize_event_run w h0 c h) as [_ [_ [Hw _]]].
      rewrite Hw. reflexivity.
  - rewrite andb_false_r, app_nil_r. destruct color; reflexivity.
Qed.

Lemma added_listener_step (L : list (string * Listener)) (t i e : bool) :
  L ++ added_listener (has_resize L) t (i || e)
  = (L ++ added_listener (has_resize L) t i)
      ++ added_listener (has_resize (L ++ added_listener (has_resize L) t i)) t e.
Proof.
  unfold added_listener.
  destruct (has_resize L) eqn:R, t, i, e; cbn;
    rewrite ?app_nil_r, ?R; cbn; rewrite ?app_nil_r; try reflexivity;
    unfold has_resize; rewrite existsb_app; cbn; rewrite orb_true_r;
    cbn; rewrite app_nil_r; reflexivity.
Qed.

(** X2. Over any script of method calls and viewport changes, from any
    state, the [fullWindow] field keeps its value, no listener is ever
    removed from the window, and the only addition is one ["resize"]
    listener, made by [init] on a full-window facade when none is
    registered yet: however often [init] runs, it registers at most once. *)
Theorem X2_fullWindow_and_listeners :
  (forall ops c h,
     let s' := exec (script (map class_run ops)) (c, h) in
     ClassCanvas.fullWindow (fst s') = ClassCanvas.fullWindow c
     /\ listeners (window (snd s'))
        = listeners (window h)
            ++ added_listener (has_resize (listeners (window h)))
                 (truthy (ClassCanvas.fullWindow c)) (existsb is_init ops))
  /\ (forall ops c h,
     let s' := exec (script (map proto_run ops)) (c, h) in
     ProtoCanvas.fullWindow (fst s') = ProtoCanvas.fullWindow c
     /\ listeners (window (snd s'))
        = listeners (window h)
            ++ added_listener (has_resize (listeners (window h)))
                 (truthy (ProtoCanvas.fullWindow c)) (existsb proto_is_init ops)).
Proof.
  split.
  - induction ops as [| o ops IH]; intros c h; cbn zeta.
    + cbn. unfold added_listener. rewrite andb_false_r, app_nil_r.
      split; reflexivity.
    + cbn [map existsb]. rewrite exec_script_cons.
      destruct (class_run_flag o c h) as [_ Hf].
      pose proof (class_run_listeners_step o c h) as Hl.
      destruct (exec (class_run o) (c, h)) as [c1 h1].
      cbn [fst snd] in Hf, Hl.
      destruct (IH c1 h1) as [Hf' Hl']. cbn zeta in Hf', Hl'.
      rewrite Hf', Hl', Hf, Hl. split; [reflexivity |].
      symmetry. apply added_listener_step.
  - induction ops as [| o ops IH]; intros c h; cbn zeta.
    + cbn. unfold added_listener. rewrite andb_false_r, app_nil_r.
      split; reflexivity.
    + cbn [map existsb]. rewrite exec_script_cons.
      destruct (proto_run_flag o c h) as [_ Hf].
      pose proof (proto_run_listeners_step o c h) as Hl.
      destruct (exec (proto_run o) (c, h)) as [c1 h1].
      cbn [fst snd] in Hf, Hl.
      destruct (IH c1 h1) as [Hf' Hl']. cbn zeta in Hf', Hl'.
      rewrite Hf', Hl', Hf, Hl. split; [reflexivity |].
      symmetry. apply added_listener_step.
Qed.

(** ** The cached size of the prototype *)

Lemma proto_run_coherent (o : ProtoOp) (c : ProtoCanvas.Canvas) (h : Host) :
  proto_coherent (c, h) -> proto_coherent (exec (proto_run o) (c, h)).
Proof.
  unfold proto_coherent. intros [Hw Hh].
  destruct o as [o | color]; cbn [proto_run].
  - destruct o; cbn [proto_run_shared];
      try (destruct c as [fw ps wd ht], h as [[cw ch d a fs ss pa sv bm] w t];
           case_args; destruct ps, sv as [| [? ?] ?];
           cbn in *; split; first [reflexivity | assumption]).
    pose proof (proto_resize_event_run w h0 c h) as H. cbn zeta in H.
    destruct H as [_ [_ [_ H]]].
    destruct (has_resize (listeners (window h))).
    + destruct H as [H1 [H2 [H3 [H4 _]]]]. rewrite H1, H2, H3, H4.
      split; reflexivity.
    + rewrite H. cbn. split; assumption.
  - destruct c as [fw ps wd ht], h as [cv w t], color; cbn in *;
      split; assumption.
Qed.

Lemma canvas_size_okb_ok (n : number) :
  canvas_size_okb n = true -> canvas_size_ok n.
Proof.
  unfold canvas_size_okb, canvas_size_ok. intros H.
  apply andb_true_iff in H. destruct H as [H1 H2].
  apply Z.leb_le in H1. apply Z.leb_le in H2. lia.
Qed.

(** X3. In the prototype the cached [width] and [height] agree with the
    backing size of the canvas after [init] (either branch, the viewport
    being a size a canvas stores) and after [setSize(w, h)] for sizes a
    canvas stores as assigned (0 to 2^31 - 1), from any state; and once
    they agree they keep agreeing over any script of method calls and
    viewport changes whose [setSize] calls pass such sizes. *)
Theorem X3_cached_size_coherent :
  (forall c h, proto_coherent (exec ProtoCanvas.init (c, h)))
  /\ (forall w h c hst,
     canvas_size_ok w -> canvas_size_ok h ->
     proto_coherent (exec (ProtoCanvas.setSize w h) (c, hst)))
  /\ (forall ops s,
     forallb proto_sizes_ok ops = true ->
     proto_coherent s ->
     proto_coherent (exec (script (map proto_run ops)) s)).
Proof.
  split; [| split].
  - intros [fw ps wd ht] [cv w t]. unfold proto_coherent.
    destruct fw as [| | []]; cbn; split; reflexivity.
  - intros w h c hst _ _. unfold proto_coherent. cbn. split; reflexivity.
  - induction ops as [| o ops IH]; intros [c h] Hs Hc.
    + exact Hc.
    + cbn [forallb] in Hs. apply andb_true_iff in Hs. destruct Hs as [_ Hs].
      cbn [map]. rewrite exec_script_cons. apply (IH _ Hs).
      destruct (exec (proto_run o) (c, h)) as [c1 h1] eqn:E.
      rewrite <- E. apply proto_run_coherent. exact Hc.
Qed.

(** X3 on a facade of 100 by 50 that is resized, painted and then hit by
    a viewport change nobody listens to. *)
Lemma X3_cached_size_coherent_witness :
  forallb proto_sizes_ok
    [PShared (OSetSize 10 20); PBackground (given "red");
     PShared (OResize 640 480)] = true
  /\ proto_coherent (ProtoCanvas.mkCanvas (given false) false 100 50,
                     mkHost (blank_canvas 100 50) (mkWindow 800 600 []) [])
  /\ proto_coherent
       (exec (script (map proto_run
                        [PShared (OSetSize 10 20); PBackground (given "red");
                         PShared (OResize 640 480)]))
          (ProtoCanvas.mkCanvas (given false) false 100 50,
           mkHost (blank_canvas 100 50) (mkWindow 800 600 []) []))
  /\ canvas_size_ok 10
  /\ canvas_size_ok 20
  /\ proto_coherent
       (exec (ProtoCanvas.setSize 10 20)
          (ProtoCanvas.mkCanvas (given false) false 100 50,
           mkHost (blank_canvas 100 50) (mkWindow 800 600 []) [])).
Proof.
  assert (H : proto_coherent
                (ProtoCanvas.mkCanvas (given false) false 100 50,
                 mkHost (blank_canvas 100 50) (mkWindow 800 600 []) []))
    by (split; reflexivity).
  assert (H10 : canvas_size_ok 10) by (unfold canvas_size_ok; lia).
  assert (H20 : canvas_size_ok 20) by (unfold canvas_size_ok; lia).
  split; [reflexivity | split; [exact H | split; [| split; [exact H10 | split; [exact H20 |]]]]].
  - apply (proj2 (proj2 X3_cached_size_coherent)); [reflexivity | exact H].
  - apply (proj1 (proj2 X3_cached_size_coherent)); [exact H10 | exact H20].
Defined.

(** ** Construction, whatever the arguments *)

(** X4. The class constructor never throws: for every argument
    combination it yields a facade with [pathStarted] false, [fullWindow]
    as passed (true when left out) and the supplied canvas, or a created
    and attached one when the canvas is left out or [null]. The prototype
    constructor throws exactly when the canvas is [null], leaving the page
    as it was; otherwise it yields a facade with [pathStarted] false whose
    cached size agrees with the canvas when [autoInit] is true or left
    out, but is 0 by 0, whatever the size of the canvas, when [autoInit]
    is false or [null]. *)
Theorem X4_construction_outcomes :
  (forall ce fw p,
     match ClassCanvas.new_Canvas ce fw p with
     | Constructed c h =>
         ClassCanvas.pathStarted c = false
         /\ ClassCanvas.fullWindow c = default_to (given true) fw
         /\ canvas h = bound_canvas ce
     | Threw _ _ => False
     end)
  /\ (forall ce fw autoInit p,
     match ProtoCanvas.new_Canvas ce fw autoInit p with
     | Constructed c h =>
         ce <> null
         /\ ProtoCanvas.pathStarted c = false
         /\ ProtoCanvas.fullWindow c = default_to (given true) fw
         /\ (if truthy (default_to (given true) autoInit)
             then proto_coherent (c, h)
             else ProtoCanvas.width c = 0 /\ ProtoCanvas.height c = 0
                  /\ canvas h = bound_canvas ce)
     | Threw e p' => ce = null /\ e = TypeError /\ p' = p
     end).
Proof.
  split.
  - intros [| | el] fw p; cbn; repeat split.
  - intros [| | el] [| | []] [| | []] p; cbn;
      repeat split; discriminate.
Qed.

(** ** The prototype against the class *)





(** ** Paths across other calls *)

Lemma path_after_lines_nonempty (pts : list (number * number)) :
  forall (q : PathCmd) (qs : list PathCmd),
    path_after_lines pts (q :: qs)
    = (q :: qs) ++ map (fun p => PLine (fst p) (snd p)) pts.
Proof.
  induction pts as [| [x y] pts IH]; intros q qs.
  - cbn. rewrite app_nil_r. reflexivity.
  - change (path_after_lines ((x, y) :: pts) (q :: qs))
      with (path_after_lines pts (q :: (qs ++ [PLine x y]))).
    rewrite IH. cbn. rewrite <- app_assoc. reflexivity.
Qed.

(** The whole state after a run of [addPoint] on a started facade. *)
Lemma class_addPoints_started_state (pts : list (number * number)) :
  forall (fw : jsval bool) (cv : CanvasElement) (w : Window) (t : list Call),
    exec (class_addPoints pts) (ClassCanvas.mkCanvas fw true, mkHost cv w t)
    = (ClassCanvas.mkCanvas fw true,
       mkHost (set_path (path_after_lines pts (ctx_path cv)) cv) w
         (t ++ map (fun p => CtxLineTo (fst p) (snd p)) pts)).
Proof.
  induction pts as [| [x y] pts IH]; intros fw cv w t.
  - destruct cv. cbn. rewrite app_nil_r. reflexivity.
  - unfold class_addPoints in *. cbn [map fst snd].
    rewrite exec_script_cons.
    replace (exec (ClassCanvas.addPoint x y)
               (ClassCanvas.mkCanvas fw true, mkHost cv w t))
      with (ClassCanvas.mkCanvas fw true,
            mkHost (set_path (path_lineTo x y (ctx_path cv)) cv) w
              (t ++ [CtxLineTo x y])) by reflexivity.
    rewrite IH. cbn [map fst snd]. rewrite <- app_assoc. reflexivity.
Qed.

Lemma proto_addPoints_started_state (pts : list (number * number)) :
  forall (fw : jsval bool) (wd ht : number) (cv : CanvasElement) (w : Window)
         (t : list Call),
    exec (proto_addPoints pts)
      (ProtoCanvas.mkCanvas fw true wd ht, mkHost cv w t)
    = (ProtoCanvas.mkCanvas fw true wd ht,
       mkHost (set_path (path_after_lines pts (ctx_path cv)) cv) w
         (t ++ map (fun p => CtxLineTo (fst p) (snd p)) pts)).
Proof.
  induction pts as [| [x y] pts IH]; intros fw wd ht cv w t.
  - destruct cv. cbn. rewrite app_nil_r. reflexivity.
  - unfold proto_addPoints in *. cbn [map fst snd].
    rewrite exec_script_cons.
    replace (exec (ProtoCanvas.addPoint x y)
               (ProtoCanvas.mkCanvas fw true wd ht, mkHost cv w t))
      with (ProtoCanvas.mkCanvas fw true wd ht,
            mkHost (set_path (path_lineTo x y (ctx_path cv)) cv) w
              (t ++ [CtxLineTo x y])) by reflexivity.
    rewrite IH. cbn [map fst snd]. rewrite <- app_assoc. reflexivity.
Qed.

(** The whole state after a non-empty run of [addPoint] on an idle
    facade: only the path of the canvas and the log have changed. *)
Lemma class_addPoints_idle_state (p : number * number)
    (pts : list (number * number)) (fw : jsval bool) (h : Host) :
  exec (class_addPoints (p :: pts)) (ClassCanvas.mkCanvas fw false, h)
  = (ClassCanvas.mkCanvas fw true,
     mkHost (set_path (polyline (p :: pts)) (canvas h)) (window h)
       (trace h ++ polyline_calls false (p :: pts))).
Proof.
  destruct p as [x y], h as [cv w t].
  unfold class_addPoints. cbn [map fst snd]. rewrite exec_script_cons.
  replace (exec (ClassCanvas.addPoint x y)
             (ClassCanvas.mkCanvas fw false, mkHost cv w t))
    with (ClassCanvas.mkCanvas fw true,
          mkHost (set_path [PMove x y] cv) w
            ((t ++ [CtxBeginPath]) ++ [CtxMoveTo x y])) by reflexivity.
  fold (class_addPoints pts). rewrite class_addPoints_started_state.
  cbn [ctx_path set_path]. rewrite path_after_lines_nonempty.
  cbn. rewrite <- !app_assoc. reflexivity.
Qed.

Lemma proto_addPoints_idle_state (p : number * number)
    (pts : list (number * number)) (fw : jsval bool) (wd ht : number)
    (h : Host) :
  exec (proto_addPoints (p :: pts)) (ProtoCanvas.mkCanvas fw false wd ht, h)
  = (ProtoCanvas.mkCanvas fw true wd ht,
     mkHost (set_path (polyline (p :: pts)) (canvas h)) (window h)
       (trace h ++ polyline_calls false (p :: pts))).
Proof.
  destruct p as [x y], h as [cv w t].
  unfold proto_addPoints. cbn [map fst snd]. rewrite exec_script_cons.
  replace (exec (ProtoCanvas.addPoint x y)
             (ProtoCanvas.mkCanvas fw false wd ht, mkHost cv w t))
    with (ProtoCanvas.mkCanvas fw true wd ht,
          mkHost (set_path [PMove x y] cv) w
            ((t ++ [CtxBeginPath]) ++ [CtxMoveTo x y])) by reflexivity.
  fold (proto_addPoints pts). rewrite proto_addPoints_started_state.
  cbn [ctx_path set_path]. rewrite path_after_lines_nonempty.
  cbn. rewrite <- !app_assoc. reflexivity.
Qed.

Lemma same_geometry_trans (a b c : CanvasElement) :
  same_geometry a b -> same_geometry b c -> same_geometry a c.
Proof.
  unfold same_geometry. intros [A1 [A2 [A3 [A4 A5]]]] [B1 [B2 [B3 [B4 B5]]]].
  repeat split; congruence.
Qed.

Lemma class_styling_step (o : Op) (c : ClassCanvas.Canvas) (h : Host) :
  styling o = true ->
  fst (exec (class_run o) (c, h)) = c
  /\ window (snd (exec (class_run o) (c, h))) = window h
  /\ same_geometry (canvas (snd (exec (class_run o) (c, h)))) (canvas h).
Proof.
  intros Hs. unfold same_geometry.
  destruct o; try discriminate Hs; cbn [class_run];
    destruct c as [fw ps], h as [[cw ch d a fs ss pa sv bm] w t];
    case_args; try destruct sv as [| [? ?] ?]; cbn; repeat split.
Qed.

Lemma proto_styling_step (o : ProtoOp) (c : ProtoCanvas.Canvas) (h : Host) :
  proto_styling o = true ->
  fst (exec (proto_run o) (c, h)) = c
  /\ window (snd (exec (proto_run o) (c, h))) = window h
  /\ same_geometry (canvas (snd (exec (proto_run o) (c, h)))) (canvas h).
Proof.
  intros Hs. unfold same_geometry.
  destruct o as [o | color]; cbn [proto_run proto_styling] in *.
  - destruct o; try discriminate Hs; cbn [proto_run_shared];
      destruct c as [fw ps wd ht], h as [[cw ch d a fs ss pa sv bm] w t];
      case_args; try destruct sv as [| [? ?] ?]; cbn; repeat split.
  - destruct c as [fw ps wd ht], h as [[cw ch d a fs ss pa sv bm] w t], color;
      cbn; repeat split.
Qed.

(** Styling and painting steps, however many, keep the frame. *)
Lemma class_styling_run (ops : list Op) :
  forall c h,
    forallb styling ops = true ->
    fst (exec (script (map class_run ops)) (c, h)) = c
    /\ window (snd (exec (script (map class_run ops)) (c, h))) = window h
    /\ same_geometry (canvas (snd (exec (script (map class_run ops)) (c, h))))
         (canvas h).
Proof.
  induction ops as [| o ops IH]; intros c h Hs.
  - unfold same_geometry. repeat split.
  - cbn [forallb] in Hs. apply andb_true_iff in Hs. destruct Hs as [Ho Hops].
    cbn [map]. rewrite exec_script_cons.
    destruct (class_styling_step o c h Ho) as [Hc [Hw Hg]].
    destruct (exec (class_run o) (c, h)) as [c1 h1].
    cbn [fst snd] in Hc, Hw, Hg. subst c1.
    destruct (IH c h1 Hops) as [Hc' [Hw' Hg']].
    split; [exact Hc' | split; [congruence |]].
    exact (same_geometry_trans _ _ _ Hg' Hg).
Qed.

Lemma proto_styling_run (ops : list ProtoOp) :
  forall c h,
    forallb proto_styling ops = true ->
    fst (exec (script (map proto_run ops)) (c, h)) = c
    /\ window (snd (exec (script (map proto_run ops)) (c, h))) = window h
    /\ same_geometry (canvas (snd (exec (script (map proto_run ops)) (c, h))))
         (canvas h).
Proof.
  induction ops as [| o ops IH]; intros c h Hs.
  - unfold same_geometry. repeat split.
  - cbn [forallb] in Hs. apply andb_true_iff in Hs. destruct Hs as [Ho Hops].
    cbn [map]. rewrite exec_script_cons.
    destruct (proto_styling_step o c h Ho) as [Hc [Hw Hg]].
    destruct (exec (proto_run o) (c, h)) as [c1 h1].
    cbn [fst snd] in Hc, Hw, Hg. subst c1.
    destruct (IH c h1 Hops) as [Hc' [Hw' Hg']].
    split; [exact Hc' | split; [congruence |]].
    exact (same_geometry_trans _ _ _ Hg' Hg).
Qed.

(** X6. Any script made only of [fillStyle], [strokeStyle], [rect],
    [save], [restore], [clearAll] and, in the prototype, [background]
    returns the facade as it was and leaves the window, the size, display
    and attachment of the canvas and the current path of the context
    untouched. *)
Theorem X6_styling_frame :
  (forall ops c h,
     forallb styling ops = true ->
     let s' := exec (script (map class_run ops)) (c, h) in
     fst s' = c
     /\ window (snd s') = window h
     /\ same_geometry (canvas (snd s')) (canvas h))
  /\ (forall ops c h,
     forallb proto_styling ops = true ->
     let s' := exec (script (map proto_run ops)) (c, h) in
     fst s' = c
     /\ window (snd s') = window h
     /\ same_geometry (canvas (snd s')) (canvas h)).
Proof.
  split; intros ops c h Hs; cbn zeta.
  - apply class_styling_run. exact Hs.
  - apply proto_styling_run. exact Hs.
Qed.

(** X6 on a prototype script that styles, paints and restores. *)
Lemma X6_styling_frame_witness :
  forallb proto_styling
    [PShared OSave; PShared (OFillStyle (given "red")); PBackground (given "blue");
     PShared (ORect 1 2 3 4); PShared ORestore; PShared OClearAll] = true
  /\ ctx_path
       (canvas
          (snd (exec (script (map proto_run
                                [PShared OSave; PShared (OFillStyle (given "red"));
                                 PBackground (given "blue");
                                 PShared (ORect 1 2 3 4); PShared ORestore;
                                 PShared OClearAll]))
                  (ProtoCanvas.mkCanvas (given false) true 100 50,
                   mkHost (set_path [PMove 5 6] (blank_canvas 100 50))
                     (mkWindow 800 600 []) []))))
     = [PMove 5 6].
Proof.
  split; [reflexivity |].
  apply (proj2 X6_styling_frame
           [PShared OSave; PShared (OFillStyle (given "red"));
            PBackground (given "blue");
            PShared (ORect 1 2 3 4); PShared ORestore; PShared OClearAll]
           (ProtoCanvas.mkCanvas (given false) true 100 50)
           (mkHost (set_path [PMove 5 6] (blank_canvas 100 50))
              (mkWindow 800 600 []) [])
           eq_refl).
Defined.

(** X7. A run of [addPoint] may be interrupted by any styling or painting
    calls: from an idle facade, points, then such calls, then more points
    leave the flag true and the polyline through all the points, in call
    order, as the current path. *)
Theorem X7_polyline_survives_styling :
  (forall p pts ops qs fw h,
     forallb styling ops = true ->
     let s' := exec (script (class_addPoints (p :: pts)
                               :: map class_run ops ++ [class_addPoints qs]))
                 (ClassCanvas.mkCanvas fw false, h) in
     ClassCanvas.pathStarted (fst s') = true
     /\ ctx_path (canvas (snd s')) = polyline ((p :: pts) ++ qs))
  /\ (forall p pts ops qs fw wd ht h,
     forallb proto_styling ops = true ->
     let s' := exec (script (proto_addPoints (p :: pts)
                               :: map proto_run ops ++ [proto_addPoints qs]))
                 (ProtoCanvas.mkCanvas fw false wd ht, h) in
     ProtoCanvas.pathStarted (fst s') = true
     /\ ctx_path (canvas (snd s')) = polyline ((p :: pts) ++ qs)).
Proof.
  split.
  - intros p pts ops qs fw h Hs. cbn zeta.
    rewrite exec_script_cons, class_addPoints_idle_state, exec_script_app.
    destruct (class_styling_run ops (ClassCanvas.mkCanvas fw true)
                (mkHost (set_path (polyline (p :: pts)) (canvas h)) (window h)
                   (trace h ++ polyline_calls false (p :: pts))) Hs)
      as [Hc [_ [_ [_ [_ [_ Hp]]]]]].
    destruct (exec (script (map class_run ops)) _) as [c1 [cv1 w1 t1]].
    cbn [fst snd canvas ctx_path set_path] in Hc, Hp. subst c1.
    rewrite exec_script_cons, exec_script_nil, class_addPoints_started_state.
    cbn [fst snd canvas ctx_path set_path]. rewrite Hp.
    destruct p as [x y]. cbn [polyline app].
    rewrite path_after_lines_nonempty, map_app. split; reflexivity.
  - intros p pts ops qs fw wd ht h Hs. cbn zeta.
    rewrite exec_script_cons, proto_addPoints_idle_state, exec_script_app.
    destruct (proto_styling_run ops (ProtoCanvas.mkCanvas fw true wd ht)
                (mkHost (set_path (polyline (p :: pts)) (canvas h)) (window h)
                   (trace h ++ polyline_calls false (p :: pts))) Hs)
      as [Hc [_ [_ [_ [_ [_ Hp]]]]]].
    destruct (exec (script (map proto_run ops)) _) as [c1 [cv1 w1 t1]].
    cbn [fst snd canvas ctx_path set_path] in Hc, Hp. subst c1.
    rewrite exec_script_cons, exec_script_nil, proto_addPoints_started_state.
    cbn [fst snd canvas ctx_path set_path]. rewrite Hp.
    destruct p as [x y]. cbn [polyline app].
    rewrite path_after_lines_nonempty, map_app. split; reflexivity.
Qed.

(** X7 on a triangle whose second and third points come after the fill
    style is set and a rectangle is painted. *)
Lemma X7_polyline_survives_styling_witness :
  forallb styling [OFillStyle (given "red"); ORect 0 0 5 5] = true
  /\ ctx_path
       (canvas
          (snd (exec (script (class_addPoints [(20, 20)]
                                :: map class_run
                                     [OFillStyle (given "red"); ORect 0 0 5 5]
                                   ++ [class_addPoints [(40, 10); (50, 90)]]))
                  (ClassCanvas.mkCanvas (given true) false,
                   mkHost (blank_canvas 100 50) (mkWindow 800 600 []) []))))
     = polyline ([(20, 20)] ++ [(40, 10); (50, 90)]).
Proof.
  split; [reflexivity |].
  apply (proj1 X7_polyline_survives_styling (20, 20) []
           [OFillStyle (given "red"); ORect 0 0 5 5] [(40, 10); (50, 90)]
           (given true)
           (mkHost (blank_canvas 100 50) (mkWindow 800 600 []) [])
           eq_refl).
Defined.

(** ** One shape after another *)

Lemma class_finish_state (use_fill : bool) (closed : jsval bool)
    (fw : jsval bool) (ps : bool) (cv : CanvasElement) (w : Window)
    (t : list Call) :
  exec (class_finish use_fill closed) (ClassCanvas.mkCanvas fw ps, mkHost cv w t)
  = (ClassCanvas.mkCanvas fw false,
     mkHost (paint (finished_paint use_fill cv
                      (path_close_if (truthy closed) (ctx_path cv)))
               (set_path (path_close_if (truthy closed) (ctx_path cv)) cv))
       w (t ++ closing_calls closed
            ++ [if use_fill then CtxFill else CtxStroke])).
Proof.
  destruct cv, use_fill, closed as [| | []];
    unfold class_finish, ClassCanvas.fill, ClassCanvas.stroke, closing_calls;
    run_script; rewrite <- ?app_assoc; reflexivity.
Qed.

Lemma proto_finish_state (use_fill : bool) (closed : jsval bool)
    (fw : jsval bool) (ps : bool) (wd ht : number) (cv : CanvasElement)
    (w : Window) (t : list Call) :
  exec (proto_finish use_fill closed)
    (ProtoCanvas.mkCanvas fw ps wd ht, mkHost cv w t)
  = (ProtoCanvas.mkCanvas fw false wd ht,
     mkHost (paint (finished_paint use_fill cv
                      (path_close_if (truthy closed) (ctx_path cv)))
               (set_path (path_close_if (truthy closed) (ctx_path cv)) cv))
       w (t ++ closing_calls closed
            ++ [if use_fill then CtxFill else CtxStroke])).
Proof.
  destruct cv, use_fill, closed as [| | []];
    unfold proto_finish, ProtoCanvas.fill, ProtoCanvas.stroke, closing_calls;
    run_script; rewrite <- ?app_assoc; reflexivity.
Qed.

(** X8. Finishing separates shapes: from an idle facade, a run of points,
    then [stroke(closed)] or [fill(closed)], then a second run of points
    paints the first polyline (closed when asked) once, in the stroke
    (respectively fill) style that was current, and leaves as current path
    the polyline of the second run alone, with the flag true again. *)
Theorem X8_finish_separates_shapes :
  (forall use_fill p pts closed q qs fw h,
     let s := exec (script [class_addPoints (p :: pts);
                            class_finish use_fill closed;
                            class_addPoints (q :: qs)])
                (ClassCanvas.mkCanvas fw false, h) in
     ClassCanvas.pathStarted (fst s) = true
     /\ ctx_path (canvas (snd s)) = polyline (q :: qs)
     /\ cv_bitmap (canvas (snd s))
        = cv_bitmap (canvas h)
            ++ [finished_paint use_fill (canvas h)
                  (finished_path (p :: pts) closed)])
  /\ (forall use_fill p pts closed q qs fw wd ht h,
     let s := exec (script [proto_addPoints (p :: pts);
                            proto_finish use_fill closed;
                            proto_addPoints (q :: qs)])
                (ProtoCanvas.mkCanvas fw false wd ht, h) in
     ProtoCanvas.pathStarted (fst s) = true
     /\ ctx_path (canvas (snd s)) = polyline (q :: qs)
     /\ cv_bitmap (canvas (snd s))
        = cv_bitmap (canvas h)
            ++ [finished_paint use_fill (canvas h)
                  (finished_path (p :: pts) closed)]).
Proof.
  split.
  - intros use_fill p pts closed q qs fw h. cbn zeta.
    rewrite exec_script_cons, class_addPoints_idle_state.
    rewrite exec_script_cons, class_finish_state.
    rewrite exec_script_cons, exec_script_nil, class_addPoints_idle_state.
    destruct h as [cv w t], use_fill; repeat split.
  - intros use_fill p pts closed q qs fw wd ht h. cbn zeta.
    rewrite exec_script_cons, proto_addPoints_idle_state.
    rewrite exec_script_cons, proto_finish_state.
    rewrite exec_script_cons, exec_script_nil, proto_addPoints_idle_state.
    destruct h as [cv w t], use_fill; repeat split.
Qed.

(** X9. Finishing does not discard the path on the context: from an idle
    facade, a run of points, then [fill(closed)], then [stroke()] paints
    the same path twice, first filled in the fill style and then stroked
    in the stroke style, and ends with the flag false. *)
Theorem X9_fill_then_stroke_same_path :
  (forall p pts closed fw h,
     let s := exec (script [class_addPoints (p :: pts);
                            ClassCanvas.fill closed;
                            ClassCanvas.stroke undefined])
                (ClassCanvas.mkCanvas fw false, h) in
     ClassCanvas.pathStarted (fst s) = false
     /\ cv_bitmap (canvas (snd s))
        = cv_bitmap (canvas h)
            ++ [PaintFill (ctx_fillStyle (canvas h)) (finished_path (p :: pts) closed);
                PaintStroke (ctx_strokeStyle (canvas h))
                  (finished_path (p :: pts) closed)])
  /\ (forall p pts closed fw wd ht h,
     let s := exec (script [proto_addPoints (p :: pts);
                            ProtoCanvas.fill closed;
                            ProtoCanvas.stroke undefined])
                (ProtoCanvas.mkCanvas fw false wd ht, h) in
     ProtoCanvas.pathStarted (fst s) = false
     /\ cv_bitmap (canvas (snd s))
        = cv_bitmap (canvas h)
            ++ [PaintFill (ctx_fillStyle (canvas h)) (finished_path (p :: pts) closed);
                PaintStroke (ctx_strokeStyle (canvas h))
                  (finished_path (p :: pts) closed)]).
Proof.
  split.
  - intros p pts closed fw h. cbn zeta.
    rewrite exec_script_cons, class_addPoints_idle_state.
    change (ClassCanvas.fill closed) with (class_finish true closed).
    change (ClassCanvas.stroke undefined) with (class_finish false undefined).
    rewrite exec_script_cons, class_finish_state.
    rewrite exec_script_cons, exec_script_nil, class_finish_state.
    destruct h as [cv w t]. cbn. rewrite <- app_assoc.
    split; reflexivity.
  - intros p pts closed fw wd ht h. cbn zeta.
    rewrite exec_script_cons, proto_addPoints_idle_state.
    change (ProtoCanvas.fill closed) with (proto_finish true closed).
    change (ProtoCanvas.stroke undefined) with (proto_finish false undefined).
    rewrite exec_script_cons, proto_finish_state.
    rewrite exec_script_cons, exec_script_nil, proto_finish_state.
    destruct h as [cv w t]. cbn. rewrite <- app_assoc.
    split; reflexivity.
Qed.

(** ** Arcs and points together *)

Lemma class_arc_state (x y r a0 a1 : number) (acw atp : jsval bool)
    (c : ClassCanvas.Canvas) (cv : CanvasElement) (w : Window) (t : list Call) :
  exec (ClassCanvas.arc x y r a0 a1 acw atp) (c, mkHost cv w t)
  = (c, mkHost (set_path ((if truthy atp then ctx_path cv else [])
                            ++ [PArc x y r a0 a1 (default_to (given false) acw)])
                  cv) w
          (t ++ (if truthy atp then [] else [CtxBeginPath])
             ++ [CtxArc x y r a0 a1 (default_to (given false) acw)])).
Proof.
  destruct cv, atp as [| | []]; unfold ClassCanvas.arc; run_script;
    rewrite <- ?app_assoc; reflexivity.
Qed.

Lemma proto_arc_state (x y r a0 a1 : number) (acw atp : jsval bool)
    (c : ProtoCanvas.Canvas) (cv : CanvasElement) (w : Window) (t : list Call) :
  exec (ProtoCanvas.arc x y r a0 a1 acw atp) (c, mkHost cv w t)
  = (c, mkHost (set_path ((if truthy atp then ctx_path cv else [])
                            ++ [PArc x y r a0 a1 (default_to (given false) acw)])
                  cv) w
          (t ++ (if truthy atp then [] else [CtxBeginPath])
             ++ [CtxArc x y r a0 a1 (default_to (given false) acw)])).
Proof.
  destruct cv, atp as [| | []]; unfold ProtoCanvas.arc; run_script;
    rewrite <- ?app_assoc; reflexivity.
Qed.

(** X10. How [arc] and [addPoint] mix is decided by the flag alone. On an
    idle facade an arc, whatever [addToPath], is dropped by the next
    [addPoint], which begins a new path at its point. After a run of
    points the flag is true, so the next [addPoint] sends [lineTo] only:
    for a radius that is not negative the point is joined to the arc,
    which follows the polyline when [addToPath] is true and has replaced
    it when [addToPath] is false. *)
Theorem X10_arc_then_addPoint :
  (forall x y r a0 a1 acw atp x' y' fw h,
     let s := exec (script [ClassCanvas.arc x y r a0 a1 acw atp;
                            ClassCanvas.addPoint x' y'])
                (ClassCanvas.mkCanvas fw false, h) in
     ClassCanvas.pathStarted (fst s) = true
     /\ ctx_path (canvas (snd s)) = [PMove x' y'])
  /\ (forall p pts x y r a0 a1 acw atp x' y' fw h,
     let s := exec (script [class_addPoints (p :: pts);
                            ClassCanvas.arc x y r a0 a1 acw atp;
                            ClassCanvas.addPoint x' y'])
                (ClassCanvas.mkCanvas fw false, h) in
     ClassCanvas.pathStarted (fst s) = true
     /\ trace (snd s)
        = trace h ++ polyline_calls false (p :: pts)
            ++ (if truthy atp then [] else [CtxBeginPath])
            ++ [CtxArc x y r a0 a1 (default_to (given false) acw);
                CtxLineTo x' y']
     /\ (0 <= r ->
         ctx_path (canvas (snd s))
         = (if truthy atp then polyline (p :: pts) else [])
             ++ [PArc x y r a0 a1 (default_to (given false) acw); PLine x' y']))
  /\ (forall x y r a0 a1 acw atp x' y' fw wd ht h,
     let s := exec (script [ProtoCanvas.arc x y r a0 a1 acw atp;
                            ProtoCanvas.addPoint x' y'])
                (ProtoCanvas.mkCanvas fw false wd ht, h) in
     ProtoCanvas.pathStarted (fst s) = true
     /\ ctx_path (canvas (snd s)) = [PMove x' y'])
  /\ (forall p pts x y r a0 a1 acw atp x' y' fw wd ht h,
     let s := exec (script [proto_addPoints (p :: pts);
                            ProtoCanvas.arc x y r a0 a1 acw atp;
                            ProtoCanvas.addPoint x' y'])
                (ProtoCanvas.mkCanvas fw false wd ht, h) in
     ProtoCanvas.pathStarted (fst s) = true
     /\ trace (snd s)
        = trace h ++ polyline_calls false (p :: pts)
            ++ (if truthy atp then [] else [CtxBeginPath])
            ++ [CtxArc x y r a0 a1 (default_to (given false) acw);
                CtxLineTo x' y']
     /\ (0 <= r ->
         ctx_path (canvas (snd s))
         = (if truthy atp then polyline (p :: pts) else [])
             ++ [PArc x y r a0 a1 (default_to (given false) acw); PLine x' y'])).
Proof.
  split; [| split; [| split]].
  - intros x y r a0 a1 acw atp x' y' fw [cv w t]. cbn zeta.
    rewrite exec_script_cons, class_arc_state. split; reflexivity.
  - intros p pts x y r a0 a1 acw atp x' y' fw h. cbn zeta.
    rewrite exec_script_cons, class_addPoints_idle_state.
    rewrite exec_script_cons, class_arc_state.
    destruct p as [px py], (truthy atp); cbn;
      rewrite <- ?app_assoc; cbn; repeat split.
  - intros x y r a0 a1 acw atp x' y' fw wd ht [cv w t]. cbn zeta.
    rewrite exec_script_cons, proto_arc_state. split; reflexivity.
  - intros p pts x y r a0 a1 acw atp x' y' fw wd ht h. cbn zeta.
    rewrite exec_script_cons, proto_addPoints_idle_state.
    rewrite exec_script_cons, proto_arc_state.
    destruct p as [px py], (truthy atp); cbn;
      rewrite <- ?app_assoc; cbn; repeat split.
Qed.

(** X10 on the point (5, 5), an arc of radius 10 added to the path and
    the point (7, 7). *)
Lemma X10_arc_then_addPoint_witness :
  0 <= 10
  /\ ctx_path
       (canvas
          (snd (exec (script [class_addPoints [(5, 5)];
                              ClassCanvas.arc 0 0 10 0 3 undefined (given true);
                              ClassCanvas.addPoint 7 7])
                  (ClassCanvas.mkCanvas (given true) false,
                   mkHost (blank_canvas 100 50) (mkWindow 800 600 []) []))))
     = polyline [(5, 5)] ++ [PArc 0 0 10 0 3 (given false); PLine 7 7].
Proof.
  split; [lia |].
  apply (proj2 (proj2 (proj1 (proj2 X10_arc_then_addPoint)
                         (5, 5) [] 0 0 10 0 3 undefined (given true) 7 7
                         (given true)
                         (mkHost (blank_canvas 100 50) (mkWindow 800 600 []) [])))).
  lia.
Defined.

(** ** Styles around background *)

(** X11. In the prototype, [background] does not disturb the fill style a
    client has set. Whatever fill style the context holds once
    [fillStyle(s)] has been called, a following [background(color)] paints
    the full-size rectangle in the style the context holds once [color]
    is assigned to it, a following [rect(x, y, w, h)] paints in the style
    held before [background], and that is the fill style at the end. *)
Theorem X11_background_keeps_client_style :
  forall s color x y w h c hst,
    let h1 := snd (exec (ProtoCanvas.fillStyle (given s)) (c, hst)) in
    let st := exec (script [ProtoCanvas.fillStyle (given s);
                            ProtoCanvas.background color;
                            ProtoCanvas.rect x y w h])
                (c, hst) in
    fst st = c
    /\ ctx_fillStyle (canvas (snd st)) = ctx_fillStyle (canvas h1)
    /\ cv_bitmap (canvas (snd st))
       = cv_bitmap (canvas hst)
           ++ [PaintRect (ctx_fillStyle (set_fillStyle color (canvas h1))) 0 0
                 (cv_width (canvas hst)) (cv_height (canvas hst));
               PaintRect (ctx_fillStyle (canvas h1)) x y w h].
Proof.
  intros s color x y w h c [[cw ch d a fs ss pa sv bm] win t].
  destruct color; cbn; rewrite <- ?app_assoc; repeat split.
Qed.

(** ** Calling twice *)

Lemma add_listener_registered (l : Listener) (w : Window) :
  has_resize (listeners w) = true -> add_listener "resize" l w = w.
Proof.
  intros H. unfold add_listener.
  replace (existsb (fun e => String.eqb (fst e) "resize" && Listener_eqb (snd e) l)
             (listeners w))
    with (has_resize (listeners w)).
  - rewrite H. reflexivity.
  - clear H. unfold has_resize.
    induction (listeners w) as [| e ls IH]; [reflexivity |].
    cbn [existsb]. rewrite IH. unfold Listener_eqb. rewrite andb_true_r.
    reflexivity.
Qed.

Lemma add_listener_twice (l : Listener) (w : Window) :
  add_listener "resize" l (add_listener "resize" l w)
  = add_listener "resize" l w.
Proof.
  apply add_listener_registered, has_resize_add_listener.
Qed.

(** X12. [setSize] and [init] are idempotent on the state: calling either
    twice in a row leaves the same facade, canvas, context and window as
    calling it once; only the log of calls is longer. In particular a
    second [init] does not register a second listener. *)
Theorem X12_setSize_init_idempotent :
  (forall w h c hst,
     fst (exec (script [ClassCanvas.setSize w h; ClassCanvas.setSize w h]) (c, hst))
     = fst (exec (ClassCanvas.setSize w h) (c, hst))
     /\ same_host_state
          (snd (exec (script [ClassCanvas.setSize w h; ClassCanvas.setSize w h])
                  (c, hst)))
          (snd (exec (ClassCanvas.setSize w h) (c, hst))))
  /\ (forall w h c hst,
     fst (exec (script [ProtoCanvas.setSize w h; ProtoCanvas.setSize w h]) (c, hst))
     = fst (exec (ProtoCanvas.setSize w h) (c, hst))
     /\ same_host_state
          (snd (exec (script [ProtoCanvas.setSize w h; ProtoCanvas.setSize w h])
                  (c, hst)))
          (snd (exec (ProtoCanvas.setSize w h) (c, hst))))
  /\ (forall c h,
     fst (exec (script [ClassCanvas.init; ClassCanvas.init]) (c, h))
     = fst (exec ClassCanvas.init (c, h))
     /\ same_host_state
          (snd (exec (script [ClassCanvas.init; ClassCanvas.init]) (c, h)))
          (snd (exec ClassCanvas.init (c, h))))
  /\ (forall c h,
     fst (exec (script [ProtoCanvas.init; ProtoCanvas.init]) (c, h))
     = fst (exec ProtoCanvas.init (c, h))
     /\ same_host_state
          (snd (exec (script [ProtoCanvas.init; ProtoCanvas.init]) (c, h)))
          (snd (exec ProtoCanvas.init (c, h)))).
Proof.
  unfold same_host_state.
  split; [| split; [| split]].
  - intros w h c [cv win t]. cbn. repeat split.
  - intros w h c [cv win t]. cbn. repeat split.
  - intros [fw ps] h. rewrite exec_script_cons, exec_script_cons, exec_script_nil.
    destruct fw as [| | []]; try (repeat split; reflexivity).
    rewrite !class_init_fullWindow. cbn [fst snd canvas window].
    destruct (add_listener_viewport "resize" BoundOnWindowResizeHandler (window h))
      as [Hw Hh].
    rewrite Hw, Hh, add_listener_twice. repeat split.
  - intros [fw ps wd ht] h.
    rewrite exec_script_cons, exec_script_cons, exec_script_nil.
    destruct fw as [| | []]; try (destruct h; repeat split; reflexivity).
    rewrite !proto_init_fullWindow. cbn [fst snd canvas window].
    destruct (add_listener_viewport "resize" BoundOnWindowResizeHandler (window h))
      as [Hw Hh].
    rewrite Hw, Hh, add_listener_twice. repeat split.
Qed.

(** ** A facade that does not fill the window *)

Lemma class_events_unheard (evs : list (number * number)) :
  forall c h,
    has_resize (listeners (window h)) = false ->
    fst (exec (script (class_resize_events evs)) (c, h)) = c
    /\ canvas (snd (exec (script (class_resize_events evs)) (c, h))) = canvas h
    /\ trace (snd (exec (script (class_resize_events evs)) (c, h))) = trace h
    /\ listeners (window (snd (exec (script (class_resize_events evs)) (c, h))))
       = listeners (window h)
    /\ viewport (snd (exec (script (class_resize_events evs)) (c, h)))
       = last evs (viewport h).
Proof.
  induction evs as [| [w0 h0] evs IH]; intros c h Hl.
  - repeat split.
  - unfold class_resize_events. cbn [map fst snd].
    rewrite exec_script_cons. fold (class_resize_events evs).
    pose proof (class_resize_event_run w0 h0 c h) as H. cbn zeta in H.
    rewrite Hl in H. destruct H as [Hc [_ Hs]].
    destruct (exec (resize_event ClassCanvas.listener_body w0 h0) (c, h))
      as [c1 h1].
    cbn [fst snd] in Hc, Hs. subst c1 h1.
    destruct (IH c (mkHost (canvas h) (set_viewport w0 h0 (window h)) (trace h)) Hl)
      as [I1 [I2 [I3 [I4 I5]]]].
    rewrite I1, I2, I3, I4, I5, last_cons. repeat split.
Qed.

Lemma proto_events_unheard (evs : list (number * number)) :
  forall c h,
    has_resize (listeners (window h)) = false ->
    fst (exec (script (proto_resize_events evs)) (c, h)) = c
    /\ canvas (snd (exec (script (proto_resize_events evs)) (c, h))) = canvas h
    /\ trace (snd (exec (script (proto_resize_events evs)) (c, h))) = trace h
    /\ listeners (window (snd (exec (script (proto_resize_events evs)) (c, h))))
       = listeners (window h)
    /\ viewport (snd (exec (script (proto_resize_events evs)) (c, h)))
       = last evs (viewport h).
Proof.
  induction evs as [| [w0 h0] evs IH]; intros c h Hl.
  - repeat split.
  - unfold proto_resize_events. cbn [map fst snd].
    rewrite exec_script_cons. fold (proto_resize_events evs).
    pose proof (proto_resize_event_run w0 h0 c h) as H. cbn zeta in H.
    rewrite Hl in H. destruct H as [_ [_ [_ Hs]]].
    rewrite Hs.
    destruct (IH c (mkHost (canvas h) (set_viewport w0 h0 (window h)) (trace h)) Hl)
      as [I1 [I2 [I3 [I4 I5]]]].
    rewrite I1, I2, I3, I4, I5, last_cons. repeat split.
Qed.

(** X13. A facade with [fullWindow] false does not follow the viewport:
    when no ["resize"] listener is registered on the window, [init]
    followed by any run of viewport changes makes no call on the canvas
    beyond what [init] itself does, leaves the canvas as it was and
    registers nothing; in the prototype the cached size is the size of
    the canvas, whatever the viewport has become. *)
Theorem X13_fixed_size_facade_ignores_viewport :
  (forall ps wd ht h evs,
     has_resize (listeners (window h)) = false ->
     let s := exec (script (ProtoCanvas.init :: proto_resize_events evs))
                (ProtoCanvas.mkCanvas (given false) ps wd ht, h) in
     ProtoCanvas.width (fst s) = cv_width (canvas h)
     /\ ProtoCanvas.height (fst s) = cv_height (canvas h)
     /\ canvas (snd s) = canvas h
     /\ listeners (window (snd s)) = listeners (window h)
     /\ trace (snd s) = trace h ++ [CanvasGetWidth; CanvasGetHeight]
     /\ viewport (snd s) = last evs (viewport h))
  /\ (forall ps h evs,
     has_resize (listeners (window h)) = false ->
     let s := exec (script (ClassCanvas.init :: class_resize_events evs))
                (ClassCanvas.mkCanvas (given false) ps, h) in
     fst s = ClassCanvas.mkCanvas (given false) ps
     /\ canvas (snd s) = canvas h
     /\ listeners (window (snd s)) = listeners (window h)
     /\ trace (snd s) = trace h
     /\ viewport (snd s) = last evs (viewport h)).
Proof.
  split.
  - intros ps wd ht [cv w t] evs Hl. cbn zeta. rewrite exec_script_cons.
    replace (exec ProtoCanvas.init
               (ProtoCanvas.mkCanvas (given false) ps wd ht, mkHost cv w t))
      with (ProtoCanvas.mkCanvas (given false) ps (cv_width cv) (cv_height cv),
            mkHost cv w ((t ++ [CanvasGetWidth]) ++ [CanvasGetHeight]))
      by reflexivity.
    destruct (proto_events_unheard evs
                (ProtoCanvas.mkCanvas (given false) ps (cv_width cv) (cv_height cv))
                (mkHost cv w ((t ++ [CanvasGetWidth]) ++ [CanvasGetHeight])) Hl)
      as [I1 [I2 [I3 [I4 I5]]]].
    rewrite I1, I2, I3, I4, I5. cbn. rewrite <- app_assoc. repeat split.
  - intros ps [cv w t] evs Hl. cbn zeta. rewrite exec_script_cons.
    replace (exec ClassCanvas.init
               (ClassCanvas.mkCanvas (given false) ps, mkHost cv w t))
      with (ClassCanvas.mkCanvas (given false) ps, mkHost cv w t)
      by reflexivity.
    destruct (class_events_unheard evs (ClassCanvas.mkCanvas (given false) ps)
                (mkHost cv w t) Hl) as [I1 [I2 [I3 [I4 I5]]]].
    rewrite I1, I2, I3, I4, I5. repeat split.
Qed.

(** X13 on a canvas of 100 by 50 while the window shrinks twice. *)
Lemma X13_fixed_size_facade_ignores_viewport_witness :
  has_resize (listeners (mkWindow 800 600 [])) = false
  /\ ProtoCanvas.width
       (fst (exec (script (ProtoCanvas.init
                             :: proto_resize_events [(640, 480); (320, 240)]))
               (ProtoCanvas.mkCanvas (given false) false 0 0,
                mkHost (blank_canvas 100 50) (mkWindow 800 600 []) [])))
     = 100.
Proof.
  split; [reflexivity |].
  apply (proj1 X13_fixed_size_facade_ignores_viewport false 0 0
           (mkHost (blank_canvas 100 50) (mkWindow 800 600 []) [])
           [(640, 480); (320, 240)] eq_refl).
Defined.

(** ** A resize in the middle of a path *)

(** X14. After a run of points, [setSize] and a second run of points, the
    second run sends [lineTo] only, with no [beginPath] or [moveTo],
    because the flag was still true; the context, whose path the resize
    had emptied, ends up holding the polyline of the second run alone, so
    the points drawn before the resize are lost to a later [stroke]. *)
Theorem X14_points_after_resize :
  (forall p pts w h q qs fw hst,
     let s := exec (script [class_addPoints (p :: pts);
                            ClassCanvas.setSize w h;
                            class_addPoints (q :: qs)])
                (ClassCanvas.mkCanvas fw false, hst) in
     ClassCanvas.pathStarted (fst s) = true
     /\ trace (snd s)
        = trace hst ++ polyline_calls false (p :: pts)
            ++ [CanvasSetWidth w; CanvasSetHeight h]
            ++ polyline_calls true (q :: qs)
     /\ ctx_path (canvas (snd s)) = polyline (q :: qs))
  /\ (forall p pts w h q qs fw wd ht hst,
     let s := exec (script [proto_addPoints (p :: pts);
                            ProtoCanvas.setSize w h;
                            proto_addPoints (q :: qs)])
                (ProtoCanvas.mkCanvas fw false wd ht, hst) in
     ProtoCanvas.pathStarted (fst s) = true
     /\ trace (snd s)
        = trace hst ++ polyline_calls false (p :: pts)
            ++ [CanvasSetWidth w; CanvasSetHeight h]
            ++ polyline_calls true (q :: qs)
     /\ ctx_path (canvas (snd s)) = polyline (q :: qs)).
Proof.
  split.
  - intros p pts w h [qx qy] qs fw hst. cbn zeta.
    rewrite exec_script_cons, class_addPoints_idle_state, exec_script_cons.
    match goal with
    | |- context [exec (ClassCanvas.setSize w h) (?c, mkHost ?cv ?win ?t)] =>
        replace (exec (ClassCanvas.setSize w h) (c, mkHost cv win t))
          with (c, mkHost (resize_height h (resize_width w cv)) win
                     ((t ++ [CanvasSetWidth w]) ++ [CanvasSetHeight h]))
          by reflexivity
    end.
    rewrite exec_script_cons, exec_script_nil, class_addPoints_started_state.
    cbn [fst snd trace canvas ctx_path set_path resize_height resize_width].
    change (path_after_lines ((qx, qy) :: qs) [])
      with (path_after_lines qs [PMove qx qy]).
    rewrite path_after_lines_nonempty. cbn. rewrite <- !app_assoc.
    repeat split.
  - intros p pts w h [qx qy] qs fw wd ht hst. cbn zeta.
    rewrite exec_script_cons, proto_addPoints_idle_state, exec_script_cons.
    match goal with
    | |- context [exec (ProtoCanvas.setSize w h)
                    (ProtoCanvas.mkCanvas ?f ?b ?x ?y, mkHost ?cv ?win ?t)] =>
        replace (exec (ProtoCanvas.setSize w h)
                   (ProtoCanvas.mkCanvas f b x y, mkHost cv win t))
          with (ProtoCanvas.mkCanvas f b w h,
                mkHost (resize_height h (resize_width w cv)) win
                  ((t ++ [CanvasSetWidth w]) ++ [CanvasSetHeight h]))
          by reflexivity
    end.
    rewrite exec_script_cons, exec_script_nil, proto_addPoints_started_state.
    cbn [fst snd trace canvas ctx_path set_path resize_height resize_width].
    change (path_after_lines ((qx, qy) :: qs) [])
      with (path_after_lines qs [PMove qx qy]).
    rewrite path_after_lines_nonempty. cbn. rewrite <- !app_assoc.
    repeat split.
Qed.

(** ** One [setSize] per viewport change *)

Lemma heard_once_has_resize (w : Window) :
  heard_once w -> has_resize (listeners w) = true.
Proof.
  intros [L [_ E]]. rewrite E. unfold has_resize.
  rewrite existsb_app. cbn. apply orb_true_r.
Qed.

Lemma heard_once_add_listener (w : Window) :
  has_resize (listeners w) = false ->
  heard_once (add_listener "resize" BoundOnWindowResizeHandler w).
Proof.
  intros H. exists (listeners w). split; [exact H |].
  rewrite add_listener_resize, H. reflexivity.
Qed.

Lemma run_listeners_single {F : Type} (handler : Listener -> M F unit)
    (l : Listener) (L : list (string * Listener)) :
  has_resize L = false ->
  forall s : St F,
    exec (run_listeners handler (L ++ [("resize", l)])) s = exec (handler l) s.
Proof.
  induction L as [| [type l'] L IH]; intros H s.
  - cbn [app run_listeners String.eqb]. cbn. rewrite exec_bind. reflexivity.
  - cbn [has_resize existsb fst] in H. apply orb_false_iff in H.
    destruct H as [Ht HL]. cbn [app run_listeners]. rewrite Ht.
    apply IH. exact HL.
Qed.

Lemma class_events_heard (evs : list (number * number)) :
  forall c h,
    heard_once (window h) ->
    trace (snd (exec (script (class_resize_events evs)) (c, h)))
    = trace h ++ flat_map event_calls evs
    /\ listeners (window (snd (exec (script (class_resize_events evs)) (c, h))))
       = listeners (window h).
Proof.
  induction evs as [| [w0 h0] evs IH]; intros c h Hh.
  - cbn. rewrite app_nil_r. split; reflexivity.
  - unfold class_resize_events. cbn [map fst snd flat_map].
    rewrite exec_script_cons. fold (class_resize_events evs).
    rewrite exec_resize_event. destruct Hh as [L [HL E]].
    rewrite E, (run_listeners_single _ _ L HL).
    cbn [ClassCanvas.listener_body]. rewrite class_handler_run.
    match goal with
    | |- context [exec (script (class_resize_events evs)) (?c1, ?h1)] =>
        destruct (IH c1 h1) as [It Il]
    end.
    + exists L. split; [exact HL |]. cbn. exact E.
    + rewrite It, Il. cbn [trace window]. unfold viewport_sync_calls, event_calls.
      cbn. rewrite <- app_assoc. split; [reflexivity | exact E].
Qed.

Lemma proto_events_heard (evs : list (number * number)) :
  forall c h,
    heard_once (window h) ->
    trace (snd (exec (script (proto_resize_events evs)) (c, h)))
    = trace h ++ flat_map event_calls evs
    /\ listeners (window (snd (exec (script (proto_resize_events evs)) (c, h))))
       = listeners (window h).
Proof.
  induction evs as [| [w0 h0] evs IH]; intros c h Hh.
  - cbn. rewrite app_nil_r. split; reflexivity.
  - unfold proto_resize_events. cbn [map fst snd flat_map].
    rewrite exec_script_cons. fold (proto_resize_events evs).
    rewrite exec_resize_event. destruct Hh as [L [HL E]].
    rewrite E, (run_listeners_single _ _ L HL).
    cbn [ProtoCanvas.listener_body]. rewrite proto_handler_run.
    match goal with
    | |- context [exec (script (proto_resize_events evs)) (?c1, ?h1)] =>
        destruct (IH c1 h1) as [It Il]
    end.
    + exists L. split; [exact HL |]. cbn. exact E.
    + rewrite It, Il. cbn [trace window]. unfold viewport_sync_calls, event_calls.
      cbn. rewrite <- app_assoc. split; [reflexivity | exact E].
Qed.

(** Further calls of [init] on a full-window facade that is already
    listening repeat the calls of [init] and keep the window as it is. *)
Lemma class_inits_run (n : nat) :
  forall ps h,
    heard_once (window h) ->
    window (snd (exec (script (repeat ClassCanvas.init n))
                   (ClassCanvas.mkCanvas (given true) ps, h)))
    = window h
    /\ trace (snd (exec (script (repeat ClassCanvas.init n))
                     (ClassCanvas.mkCanvas (given true) ps, h)))
       = trace h ++ List.concat (repeat (class_init_calls (window h)) n).
Proof.
  induction n as [| n IH]; intros ps h Hh.
  - cbn. rewrite app_nil_r. split; reflexivity.
  - cbn [repeat List.concat]. rewrite exec_script_cons, class_init_fullWindow.
    rewrite (add_listener_registered _ _ (heard_once_has_resize _ Hh)).
    destruct (IH ps
                (mkHost (resize_height (innerHeight (window h))
                           (resize_width (innerWidth (window h)) (canvas h)))
                   (window h) (trace h ++ class_init_calls (window h))) Hh)
      as [Iw It].
    rewrite Iw, It. cbn [window trace]. rewrite <- app_assoc.
    split; reflexivity.
Qed.

Lemma proto_inits_run (n : nat) :
  forall ps wd ht h,
    heard_once (window h) ->
    window (snd (exec (script (repeat ProtoCanvas.init n))
                   (ProtoCanvas.mkCanvas (given true) ps wd ht, h)))
    = window h
    /\ trace (snd (exec (script (repeat ProtoCanvas.init n))
                     (ProtoCanvas.mkCanvas (given true) ps wd ht, h)))
       = trace h ++ List.concat (repeat (proto_init_calls (window h)) n).
Proof.
  induction n as [| n IH]; intros ps wd ht h Hh.
  - cbn. rewrite app_nil_r. split; reflexivity.
  - cbn [repeat List.concat]. rewrite exec_script_cons, proto_init_fullWindow.
    rewrite (add_listener_registered _ _ (heard_once_has_resize _ Hh)).
    destruct (IH ps (innerWidth (window h)) (innerHeight (window h))
                (mkHost (resize_height (innerHeight (window h))
                           (resize_width (innerWidth (window h))
                              (set_display "block" (canvas h))))
                   (window h) (trace h ++ proto_init_calls (window h))) Hh)
      as [Iw It].
    rewrite Iw, It. cbn [window trace]. rewrite <- app_assoc.
    split; reflexivity.
Qed.

Lemma init_calls_add_listener (l : Listener) (w : Window) :
  class_init_calls (add_listener "resize" l w) = class_init_calls w
  /\ proto_init_calls (add_listener "resize" l w) = proto_init_calls w.
Proof.
  unfold class_init_calls, proto_init_calls, viewport_sync_calls.
  destruct (add_listener_viewport "resize" l w) as [Hw Hh].
  rewrite Hw, Hh. split; reflexivity.
Qed.

(** X15. On a full-window facade in a window with no ["resize"] listener,
    however many times [init] is called (at least once), every later
    viewport change makes the facade read the viewport and assign the
    canvas size exactly once: the log holds the calls of each [init]
    followed by four calls per viewport change, and the window holds the
    listeners it had plus one. *)
Theorem X15_one_setSize_per_viewport_change :
  (forall n ps h evs,
     has_resize (listeners (window h)) = false ->
     let s := exec (script (repeat ClassCanvas.init (S n)
                              ++ class_resize_events evs))
                (ClassCanvas.mkCanvas (given true) ps, h) in
     trace (snd s)
     = trace h ++ List.concat (repeat (class_init_calls (window h)) (S n))
         ++ flat_map event_calls evs
     /\ listeners (window (snd s))
        = listeners (window h) ++ [("resize", BoundOnWindowResizeHandler)])
  /\ (forall n ps wd ht h evs,
     has_resize (listeners (window h)) = false ->
     let s := exec (script (repeat ProtoCanvas.init (S n)
                              ++ proto_resize_events evs))
                (ProtoCanvas.mkCanvas (given true) ps wd ht, h) in
     trace (snd s)
     = trace h ++ List.concat (repeat (proto_init_calls (window h)) (S n))
         ++ flat_map event_calls evs
     /\ listeners (window (snd s))
        = listeners (window h) ++ [("resize", BoundOnWindowResizeHandler)]).
Proof.
  split.
  - intros n ps h evs Hl. cbn zeta. cbn [repeat app List.concat].
    rewrite exec_script_cons, class_init_fullWindow, exec_script_app.
    pose proof (heard_once_add_listener (window h) Hl) as Hh.
    match goal with
    | |- context [exec (script (repeat ClassCanvas.init n)) (?c1, ?h1)] =>
        destruct (class_inits_run n ps h1 Hh) as [Iw It];
        destruct (exec (script (repeat ClassCanvas.init n)) (c1, h1))
          as [c2 h2]
    end.
    cbn [fst snd window trace] in Iw, It.
    rewrite <- Iw in Hh.
    destruct (class_events_heard evs c2 h2 Hh) as [Et El].
    rewrite Et, El, It, Iw.
    rewrite (proj1 (init_calls_add_listener _ _)), add_listener_resize, Hl.
    rewrite <- !app_assoc. split; reflexivity.
  - intros n ps wd ht h evs Hl. cbn zeta. cbn [repeat app List.concat].
    rewrite exec_script_cons, proto_init_fullWindow, exec_script_app.
    pose proof (heard_once_add_listener (window h) Hl) as Hh.
    match goal with
    | |- context [exec (script (repeat ProtoCanvas.init n))
                    (ProtoCanvas.mkCanvas _ _ ?x ?y, ?h1)] =>
        destruct (proto_inits_run n ps x y h1 Hh) as [Iw It];
        destruct (exec (script (repeat ProtoCanvas.init n))
                    (ProtoCanvas.mkCanvas (given true) ps x y, h1))
          as [c2 h2]
    end.
    cbn [fst snd window trace] in Iw, It.
    rewrite <- Iw in Hh.
    destruct (proto_events_heard evs c2 h2 Hh) as [Et El].
    rewrite Et, El, It, Iw.
    rewrite (proj2 (init_calls_add_listener _ _)), add_listener_resize, Hl.
    rewrite <- !app_assoc. split; reflexivity.
Qed.

(** X15 on two calls of [init] followed by two viewport changes. *)
Lemma X15_one_setSize_per_viewport_change_witness :
  has_resize (listeners (mkWindow 800 600 [])) = false
  /\ listeners
       (window
          (snd (exec (script (repeat ProtoCanvas.init 2
                                ++ proto_resize_events [(640, 480); (320, 240)]))
                  (ProtoCanvas.mkCanvas (given true) false 0 0,
                   mkHost (blank_canvas 100 50) (mkWindow 800 600 []) []))))
     = [] ++ [("resize", BoundOnWindowResizeHandler)].
Proof.
  split; [reflexivity |].
  apply (proj2 X15_one_setSize_per_viewport_change 1%nat false 0 0
           (mkHost (blank_canvas 100 50) (mkWindow 800 600 []) [])
           [(640, 480); (320, 240)] eq_refl).
Defined.
